(** * app/models.py: the SQLModel schema of the EU regulation assistant

    The module declares enumerations, persistent tables and request shapes.
    It holds no function of its own: what it "does" is what SQLModel (on top
    of pydantic and SQLAlchemy) does with the declarations, namely

    - [model_validate]: checking an input mapping against the fields of a
      class (presence, type, length, enum membership, decimal digits) and
      filling in defaults;
    - [sqlmodel_table_construct]: building an instance of a [table=True]
      class through its constructor, which fills defaults and checks nothing;
    - the constraints the generated tables carry (primary key, UNIQUE,
      NOT NULL), checked on every INSERT and UPDATE.

    The declarations below are transcribed from the source class by class,
    keyword by keyword; the three interpreters read nothing but them. *)

From Stdlib Require Import ZArith Lia.
From stdpp Require Import gmap strings list fin_maps.

Open Scope string_scope.
Open Scope list_scope.

(** ** Enumerations ([class X(str, Enum)]) *)

(** A [str]-mixin enumeration: its members in declaration order and the
    string each member is. *)
Class PyEnum (E : Type) := {
  enum_name : string;
  members : list E;
  value : E -> string;
}.
Arguments enum_name E {_}.
Arguments members E {_}.

Inductive UserType := B2C | B2B.

#[export] Instance UserType_enum : PyEnum UserType := {|
  enum_name := "UserType";
  members := [B2C; B2B];
  value m := match m with B2C => "b2c" | B2B => "b2b" end
|}.

Inductive AccountType := MASTER | MEMBER.

#[export] Instance AccountType_enum : PyEnum AccountType := {|
  enum_name := "AccountType";
  members := [MASTER; MEMBER];
  value m := match m with MASTER => "master" | MEMBER => "member" end
|}.

Inductive CompanyType := STARTUP | SME | CORPORATION | NON_PROFIT | GOVERNMENT | OTHER.

#[export] Instance CompanyType_enum : PyEnum CompanyType := {|
  enum_name := "CompanyType";
  members := [STARTUP; SME; CORPORATION; NON_PROFIT; GOVERNMENT; OTHER];
  value m :=
    match m with
    | STARTUP => "startup"
    | SME => "sme"
    | CORPORATION => "corporation"
    | NON_PROFIT => "non_profit"
    | GOVERNMENT => "government"
    | OTHER => "other"
    end
|}.

Inductive CompanySize := MICRO | SMALL | MEDIUM | LARGE.

#[export] Instance CompanySize_enum : PyEnum CompanySize := {|
  enum_name := "CompanySize";
  members := [MICRO; SMALL; MEDIUM; LARGE];
  value m :=
    match m with
    | MICRO => "micro"
    | SMALL => "small"
    | MEDIUM => "medium"
    | LARGE => "large"
    end
|}.

Inductive PricingPlan := WEEK_PASS | BESTPRICE.

#[export] Instance PricingPlan_enum : PyEnum PricingPlan := {|
  enum_name := "PricingPlan";
  members := [WEEK_PASS; BESTPRICE];
  value m := match m with WEEK_PASS => "week_pass" | BESTPRICE => "bestprice" end
|}.

Inductive QueryType := LIGHT | MAIN.

#[export] Instance QueryType_enum : PyEnum QueryType := {|
  enum_name := "QueryType";
  members := [LIGHT; MAIN];
  value m := match m with LIGHT => "light" | MAIN => "main" end
|}.

Inductive Language :=
  | BG | CS | DA | DE | EL | EN | ES | ET | FI | FR | GA | HR
  | HU | IT | LT | LV | MT | NL | PL | PT | RO | SK | SL | SV.

#[export] Instance Language_enum : PyEnum Language := {|
  enum_name := "Language";
  members := [BG; CS; DA; DE; EL; EN; ES; ET; FI; FR; GA; HR;
              HU; IT; LT; LV; MT; NL; PL; PT; RO; SK; SL; SV];
  value m :=
    match m with
    | BG => "bg" | CS => "cs" | DA => "da" | DE => "de" | EL => "el" | EN => "en"
    | ES => "es" | ET => "et" | FI => "fi" | FR => "fr" | GA => "ga" | HR => "hr"
    | HU => "hu" | IT => "it" | LT => "lt" | LV => "lv" | MT => "mt" | NL => "nl"
    | PL => "pl" | PT => "pt" | RO => "ro" | SK => "sk" | SL => "sl" | SV => "sv"
    end
|}.

(** The closed set of strings an enumeration admits. *)
Definition values (E : Type) `{PyEnum E} : list string := value <$> members E.

(** ** Python values *)

(** A finite [decimal.Decimal] as [as_tuple()] shows it: sign, coefficient
    digits (most significant first) and exponent. *)
Record Decimal := mkDecimal {
  dec_sign : bool;
  dec_digits : list nat;
  dec_exponent : Z;
}.

(** The values a field can be given, each at its Python type (the
    conversions pydantic attempts between types are left out, so that a
    value of another type than the annotation's is refused here even
    where pydantic would convert it).  A [str] is held as its UTF-8
    encoding, one element of the Rocq string per byte; a [datetime] is
    its count of microseconds since the epoch; a member of a [str]
    enumeration is the string it equals; [RList] and [RDict] carry the
    JSON columns. *)
Unset Elimination Schemes.
Inductive raw :=
  | RNone
  | RBool (b : bool)
  | RInt (z : Z)
  | RStr (s : string)
  | RDecimal (d : Decimal)
  | RDatetime (t : Z)
  | RList (l : list raw)
  | RDict (d : list (string * raw)).
Set Elimination Schemes.

(** ** Declarations *)

(** A field's annotation. *)
Inductive ty :=
  | TInt
  | TStr
  | TBool
  | TDatetime
  | TDecimal
  | TEnum (name : string) (vals : list string)
  | TList (t : ty)
  | TDictStrAny
  | TOptional (t : ty).

(** The annotation of a field typed by the enumeration [E]. *)
Definition TEnumOf (E : Type) `{PyEnum E} : ty := TEnum (enum_name E) (values E).

(** The keyword arguments of [Field(...)] that occur in the module. *)
Inductive kwarg :=
  | default (v : raw)
  | default_factory_utcnow
  | primary_key
  | unique
  | foreign_key (target : string)
  | max_length (n : nat)
  | min_length (n : nat)
  | decimal_places (n : nat)
  | max_digits (n : nat)
  | sa_column_JSON.

Record FieldDecl := mkField {
  fname : string;
  annotation : ty;
  kwargs : list kwarg;
}.

(** [Relationship(...)] attributes: they are no columns and take no part in
    validation. *)
Record RelDecl := mkRel {
  rname : string;
  rtarget : string;
  rmany : bool;
  back_populates : option string;
  uselist_false : bool;
}.

Record ModelDecl := mkModel {
  cls : string;
  table : bool;
  tablename : option string;
  fields : list FieldDecl;
  relationships : list RelDecl;
}.

(** ** The persistent classes ([table=True]) *)

Definition utcnow : list kwarg := [default_factory_utcnow].

Definition Organization : ModelDecl :=
  mkModel "Organization" true (Some "organizations")
    [ mkField "id" (TOptional TInt) [default RNone; primary_key];
      mkField "name" TStr [max_length 200];
      mkField "company_type" (TEnumOf CompanyType) [];
      mkField "company_size" (TEnumOf CompanySize) [];
      mkField "headquarters_location" TStr [max_length 100];
      mkField "subsidiary_locations" (TList TStr) [default (RList []); sa_column_JSON];
      mkField "sso_enabled" TBool [default (RBool false)];
      mkField "sso_config" TDictStrAny [default (RDict []); sa_column_JSON];
      mkField "created_at" TDatetime utcnow;
      mkField "updated_at" TDatetime utcnow ]
    [ mkRel "users" "User" true (Some "organization") false;
      mkRel "api_keys" "APIKey" true (Some "organization") false ].

Definition User : ModelDecl :=
  mkModel "User" true (Some "users")
    [ mkField "id" (TOptional TInt) [default RNone; primary_key];
      mkField "email" TStr [unique; max_length 255];
      mkField "password_hash" TStr [max_length 255];
      mkField "user_type" (TEnumOf UserType) [];
      mkField "account_type" (TOptional (TEnumOf AccountType)) [default RNone];
      mkField "organization_id" (TOptional TInt) [default RNone; foreign_key "organizations.id"];
      mkField "is_active" TBool [default (RBool true)];
      mkField "can_generate_api_keys" TBool [default (RBool false)];
      mkField "created_at" TDatetime utcnow;
      mkField "updated_at" TDatetime utcnow ]
    [ mkRel "organization" "Organization" false (Some "users") false;
      mkRel "user_context" "UserContext" false (Some "user") true;
      mkRel "subscriptions" "Subscription" true (Some "user") false;
      mkRel "api_keys" "APIKey" true (Some "user") false;
      mkRel "chat_sessions" "ChatSession" true (Some "user") false;
      mkRel "queries" "Query" true (Some "user") false;
      mkRel "documents" "Document" true (Some "user") false;
      mkRel "billing_records" "BillingRecord" true (Some "user") false ].

Definition UserContext : ModelDecl :=
  mkModel "UserContext" true (Some "user_contexts")
    [ mkField "id" (TOptional TInt) [default RNone; primary_key];
      mkField "user_id" TInt [foreign_key "users.id"; unique];
      mkField "user_type_context" TStr [max_length 50];
      mkField "home_location" TStr [max_length 100];
      mkField "preferred_language" (TEnumOf Language) [];
      mkField "profession" TStr [max_length 100];
      mkField "personal_notes" TStr [default (RStr ""); max_length 2000];
      mkField "context_data" TDictStrAny [default (RDict []); sa_column_JSON];
      mkField "created_at" TDatetime utcnow;
      mkField "updated_at" TDatetime utcnow ]
    [ mkRel "user" "User" false (Some "user_context") false ].

Definition APIKey : ModelDecl :=
  mkModel "APIKey" true (Some "api_keys")
    [ mkField "id" (TOptional TInt) [default RNone; primary_key];
      mkField "key_hash" TStr [max_length 255; unique];
      mkField "name" TStr [max_length 100];
      mkField "user_id" TInt [foreign_key "users.id"];
      mkField "organization_id" (TOptional TInt) [default RNone; foreign_key "organizations.id"];
      mkField "is_active" TBool [default (RBool true)];
      mkField "last_used_at" (TOptional TDatetime) [default RNone];
      mkField "expires_at" (TOptional TDatetime) [default RNone];
      mkField "created_at" TDatetime utcnow ]
    [ mkRel "user" "User" false (Some "api_keys") false;
      mkRel "organization" "Organization" false (Some "api_keys") false ].

Definition Subscription : ModelDecl :=
  mkModel "Subscription" true (Some "subscriptions")
    [ mkField "id" (TOptional TInt) [default RNone; primary_key];
      mkField "user_id" TInt [foreign_key "users.id"];
      mkField "pricing_plan" (TEnumOf PricingPlan) [];
      mkField "is_active" TBool [default (RBool true)];
      (* Week Pass specific fields *)
      mkField "token_allowance" (TOptional TInt) [default RNone];
      mkField "tokens_used" TInt [default (RInt 0)];
      mkField "week_pass_expires_at" (TOptional TDatetime) [default RNone];
      mkField "week_pass_price" (TOptional TDecimal) [default RNone; decimal_places 2; max_digits 10];
      (* Bestprice Plan specific fields *)
      mkField "current_price_per_1k_tokens" (TOptional TDecimal)
        [default RNone; decimal_places 4; max_digits 10];
      mkField "total_tokens_consumed" TInt [default (RInt 0)];
      mkField "created_at" TDatetime utcnow;
      mkField "updated_at" TDatetime utcnow ]
    [ mkRel "user" "User" false (Some "subscriptions") false;
      mkRel "token_usages" "TokenUsage" true (Some "subscription") false;
      mkRel "billing_records" "BillingRecord" true (Some "subscription") false ].

Definition TokenUsage : ModelDecl :=
  mkModel "TokenUsage" true (Some "token_usages")
    [ mkField "id" (TOptional TInt) [default RNone; primary_key];
      mkField "subscription_id" TInt [foreign_key "subscriptions.id"];
      mkField "query_id" (TOptional TInt) [default RNone; foreign_key "queries.id"];
      mkField "tokens_consumed" TInt [];
      mkField "cost" TDecimal [decimal_places 4; max_digits 10];
      mkField "timestamp" TDatetime utcnow ]
    [ mkRel "subscription" "Subscription" false (Some "token_usages") false;
      mkRel "query" "Query" false (Some "token_usage") false ].

Definition Document : ModelDecl :=
  mkModel "Document" true (Some "documents")
    [ mkField "id" (TOptional TInt) [default RNone; primary_key];
      mkField "user_id" TInt [foreign_key "users.id"];
      mkField "filename" TStr [max_length 255];
      mkField "original_filename" TStr [max_length 255];
      mkField "file_size" TInt [];
      mkField "mime_type" TStr [max_length 100];
      mkField "file_path" TStr [max_length 500];
      mkField "language" (TOptional (TEnumOf Language)) [default RNone];
      mkField "processed" TBool [default (RBool false)];
      mkField "processing_error" (TOptional TStr) [default RNone; max_length 1000];
      mkField "uploaded_at" TDatetime utcnow;
      mkField "processed_at" (TOptional TDatetime) [default RNone] ]
    [ mkRel "user" "User" false (Some "documents") false;
      mkRel "chat_session_links" "ChatSessionDocument" true (Some "document") false ].

Definition ChatSession : ModelDecl :=
  mkModel "ChatSession" true (Some "chat_sessions")
    [ mkField "id" (TOptional TInt) [default RNone; primary_key];
      mkField "user_id" TInt [foreign_key "users.id"];
      mkField "title" TStr [max_length 200];
      mkField "query_type" (TEnumOf QueryType) [];
      mkField "language" (TEnumOf Language) [];
      mkField "is_active" TBool [default (RBool true)];
      mkField "session_context" TDictStrAny [default (RDict []); sa_column_JSON];
      mkField "created_at" TDatetime utcnow;
      mkField "updated_at" TDatetime utcnow ]
    [ mkRel "user" "User" false (Some "chat_sessions") false;
      mkRel "queries" "Query" true (Some "chat_session") false;
      mkRel "document_links" "ChatSessionDocument" true (Some "chat_session") false ].

Definition ChatSessionDocument : ModelDecl :=
  mkModel "ChatSessionDocument" true (Some "chat_session_documents")
    [ mkField "chat_session_id" TInt [foreign_key "chat_sessions.id"; primary_key];
      mkField "document_id" TInt [foreign_key "documents.id"; primary_key];
      mkField "added_at" TDatetime utcnow ]
    [ mkRel "chat_session" "ChatSession" false None false;
      mkRel "document" "Document" false None false ].

Definition Query : ModelDecl :=
  mkModel "Query" true (Some "queries")
    [ mkField "id" (TOptional TInt) [default RNone; primary_key];
      mkField "user_id" TInt [foreign_key "users.id"];
      mkField "chat_session_id" (TOptional TInt) [default RNone; foreign_key "chat_sessions.id"];
      mkField "query_type" (TEnumOf QueryType) [];
      mkField "query_text" TStr [max_length 5000];
      mkField "response_text" TStr [default (RStr "")];
      mkField "language" (TEnumOf Language) [];
      mkField "tokens_consumed" TInt [default (RInt 0)];
      mkField "processing_time_ms" (TOptional TInt) [default RNone];
      mkField "sources" (TList TDictStrAny) [default (RList []); sa_column_JSON];
      mkField "chunks" (TList TDictStrAny) [default (RList []); sa_column_JSON];
      mkField "context_used" TDictStrAny [default (RDict []); sa_column_JSON];
      mkField "created_at" TDatetime utcnow ]
    [ mkRel "user" "User" false (Some "queries") false;
      mkRel "chat_session" "ChatSession" false (Some "queries") false;
      mkRel "token_usage" "TokenUsage" false (Some "query") true ].

Definition BillingRecord : ModelDecl :=
  mkModel "BillingRecord" true (Some "billing_records")
    [ mkField "id" (TOptional TInt) [default RNone; primary_key];
      mkField "user_id" TInt [foreign_key "users.id"];
      mkField "subscription_id" TInt [foreign_key "subscriptions.id"];
      mkField "billing_period_start" TDatetime [];
      mkField "billing_period_end" TDatetime [];
      mkField "total_tokens" TInt [];
      mkField "total_cost" TDecimal [decimal_places 2; max_digits 10];
      mkField "currency" TStr [default (RStr "EUR"); max_length 3];
      mkField "created_at" TDatetime utcnow ]
    [ mkRel "user" "User" false None false;
      mkRel "subscription" "Subscription" false None false ].

(** ** The request shapes ([table=False]) *)

Definition UserCreate : ModelDecl :=
  mkModel "UserCreate" false None
    [ mkField "email" TStr [max_length 255];
      mkField "password" TStr [min_length 8];
      mkField "user_type" (TEnumOf UserType) [];
      mkField "organization_name" (TOptional TStr) [default RNone; max_length 200] ]
    [].

Definition UserContextCreate : ModelDecl :=
  mkModel "UserContextCreate" false None
    [ mkField "user_type_context" TStr [max_length 50];
      mkField "home_location" TStr [max_length 100];
      mkField "preferred_language" (TEnumOf Language) [];
      mkField "profession" TStr [max_length 100];
      mkField "personal_notes" TStr [default (RStr ""); max_length 2000];
      mkField "context_data" TDictStrAny [default (RDict [])] ]
    [].

Definition UserContextUpdate : ModelDecl :=
  mkModel "UserContextUpdate" false None
    [ mkField "user_type_context" (TOptional TStr) [default RNone; max_length 50];
      mkField "home_location" (TOptional TStr) [default RNone; max_length 100];
      mkField "preferred_language" (TOptional (TEnumOf Language)) [default RNone];
      mkField "profession" (TOptional TStr) [default RNone; max_length 100];
      mkField "personal_notes" (TOptional TStr) [default RNone; max_length 2000];
      mkField "context_data" (TOptional TDictStrAny) [default RNone] ]
    [].

Definition OrganizationCreate : ModelDecl :=
  mkModel "OrganizationCreate" false None
    [ mkField "name" TStr [max_length 200];
      mkField "company_type" (TEnumOf CompanyType) [];
      mkField "company_size" (TEnumOf CompanySize) [];
      mkField "headquarters_location" TStr [max_length 100];
      mkField "subsidiary_locations" (TList TStr) [default (RList [])] ]
    [].

Definition QueryCreate : ModelDecl :=
  mkModel "QueryCreate" false None
    [ mkField "query_text" TStr [max_length 5000];
      mkField "query_type" (TEnumOf QueryType) [];
      mkField "language" (TEnumOf Language) [];
      mkField "chat_session_id" (TOptional TInt) [default RNone] ]
    [].

Definition SubscriptionCreate : ModelDecl :=
  mkModel "SubscriptionCreate" false None
    [ mkField "pricing_plan" (TEnumOf PricingPlan) [];
      mkField "token_allowance" (TOptional TInt) [default RNone];
      mkField "week_pass_price" (TOptional TDecimal) [default RNone] ]
    [].

Definition APIKeyCreate : ModelDecl :=
  mkModel "APIKeyCreate" false None
    [ mkField "name" TStr [max_length 100];
      mkField "expires_at" (TOptional TDatetime) [default RNone] ]
    [].

Definition DocumentUpload : ModelDecl :=
  mkModel "DocumentUpload" false None
    [ mkField "filename" TStr [max_length 255];
      mkField "file_size" TInt [];
      mkField "mime_type" TStr [max_length 100];
      mkField "language" (TOptional (TEnumOf Language)) [default RNone] ]
    [].

Definition ChatSessionCreate : ModelDecl :=
  mkModel "ChatSessionCreate" false None
    [ mkField "title" TStr [max_length 200];
      mkField "query_type" (TEnumOf QueryType) [];
      mkField "language" (TEnumOf Language) [];
      mkField "document_ids" (TList TInt) [default (RList [])] ]
    [].

(** Every class of the module, in source order. *)
Definition all_models : list ModelDecl :=
  [ Organization; User; UserContext; APIKey; Subscription; TokenUsage; Document;
    ChatSession; ChatSessionDocument; Query; BillingRecord;
    UserCreate; UserContextCreate; UserContextUpdate; OrganizationCreate; QueryCreate;
    SubscriptionCreate; APIKeyCreate; DocumentUpload; ChatSessionCreate ].

(** ** Reading a field's keywords *)

Definition first_kw {A} (pick : kwarg -> option A) (kws : list kwarg) : option A :=
  head (omap pick kws).

Definition get_max_length : list kwarg -> option nat :=
  first_kw (fun k => match k with max_length n => Some n | _ => None end).
Definition get_min_length : list kwarg -> option nat :=
  first_kw (fun k => match k with min_length n => Some n | _ => None end).
Definition get_decimal_places : list kwarg -> option nat :=
  first_kw (fun k => match k with decimal_places n => Some n | _ => None end).
Definition get_max_digits : list kwarg -> option nat :=
  first_kw (fun k => match k with max_digits n => Some n | _ => None end).

Definition is_primary_key (f : FieldDecl) : bool :=
  existsb (fun k => match k with primary_key => true | _ => false end) (kwargs f).
Definition is_unique (f : FieldDecl) : bool :=
  existsb (fun k => match k with unique => true | _ => false end) (kwargs f).
Definition has_sa_column (f : FieldDecl) : bool :=
  existsb (fun k => match k with sa_column_JSON => true | _ => false end) (kwargs f).

Definition is_optional (t : ty) : bool :=
  match t with TOptional _ => true | _ => false end.

(** The default of a field, [None] when the field is required.  The only
    [default_factory] of the module is [datetime.utcnow]; [now] stands
    for what the clock reads, the same for every field, where the code
    reads it once per field. *)
Definition get_default (now : Z) (f : FieldDecl) : option raw :=
  first_kw (fun k =>
    match k with
    | default v => Some v
    | default_factory_utcnow => Some (RDatetime now)
    | _ => None
    end) (kwargs f).

Definition is_required (f : FieldDecl) : bool :=
  match get_default 0 f with Some _ => false | None => true end.

(** ** Validation ([model_validate]) *)

(** pydantic's error types, by their names. *)
Inductive ErrorKind :=
  | missing
  | int_type
  | string_type
  | bool_type
  | datetime_type
  | decimal_type
  | list_type
  | dict_type
  | enum_error
  | string_too_short
  | string_too_long
  | decimal_max_digits
  | decimal_max_places
  | decimal_whole_digits.

(** A byte that continues a character of more than one byte:
    [10xxxxxx]. *)
Definition is_continuation (a : Ascii.ascii) : bool :=
  match a with
  | Ascii.Ascii _ _ _ _ _ _ false true => true
  | _ => false
  end.

(** Python's [len] of a [str]: its characters (code points), that is
    the bytes of its encoding that begin one. *)
Fixpoint str_len (s : string) : nat :=
  match s with
  | EmptyString => 0
  | String a s' => (if is_continuation a then 0 else 1) + str_len s'
  end.

(** Length constraints of a string, counted in characters: the lower
    bound is checked first. *)
Definition too_short (kws : list kwarg) (s : string) : bool :=
  match get_min_length kws with
  | Some n => (str_len s <? n)%nat
  | None => false
  end.

Definition too_long (kws : list kwarg) (s : string) : bool :=
  match get_max_length kws with
  | Some n => (n <? str_len s)%nat
  | None => false
  end.

Definition check_str (kws : list kwarg) (s : string) : option ErrorKind :=
  if too_short kws s then Some string_too_short
  else if too_long kws s then Some string_too_long
  else None.

(** The coefficient digits without their trailing zeros, and how many
    were dropped; nothing is left of a coefficient of zeros. *)
Fixpoint strip_trailing_zeros (ds : list nat) : list nat * nat :=
  match ds with
  | [] => ([], 0)
  | d :: ds' =>
      match strip_trailing_zeros ds' with
      | ([], k) => match d with 0 => ([], S k) | _ => ([d], k) end
      | (rest, k) => (d :: rest, k)
      end
  end.

(** [Decimal.normalize()]: the trailing zeros of the coefficient go into
    the exponent, and a zero becomes the digit 0 with exponent 0. *)
Definition normalize (d : Decimal) : Decimal :=
  match strip_trailing_zeros (dec_digits d) with
  | ([], _) => mkDecimal (dec_sign d) [0] 0
  | (rest, k) => mkDecimal (dec_sign d) rest (dec_exponent d + Z.of_nat k)
  end.

(** The digit counts pydantic reads off [as_tuple()]: all digits, and
    those after the decimal point. *)
Definition decimal_counts (d : Decimal) : nat * nat :=
  let len := length (dec_digits d) in
  if (0 <=? dec_exponent d)%Z then ((len + Z.to_nat (dec_exponent d))%nat, 0%nat)
  else
    let e := Z.abs_nat (dec_exponent d) in
    if (len <? e)%nat then (e, e) else (len, e).

(** [max_digits] bounds all digits, [decimal_places] those after the
    point, and both together the digits before it, all counted on the
    normalized decimal, so that trailing zeros do not count. *)
Definition check_decimal (kws : list kwarg) (d : Decimal) : option ErrorKind :=
  let '(digits, decimals) := decimal_counts (normalize d) in
  match get_max_digits kws, get_decimal_places kws with
  | Some m, Some p =>
      if (m <? digits)%nat then Some decimal_max_digits
      else if (p <? decimals)%nat then Some decimal_max_places
      else if (m - p <? digits - decimals)%nat then Some decimal_whole_digits
      else None
  | Some m, None => if (m <? digits)%nat then Some decimal_max_digits else None
  | None, Some p => if (p <? decimals)%nat then Some decimal_max_places else None
  | None, None => None
  end.

(** The first error of a sequence of checks. *)
Definition first_error (checks : list (option ErrorKind)) : option ErrorKind :=
  head (omap id checks).

(** The check of one supplied value against an annotation and the field's
    constraints: [None] when the value passes.  [Optional[T]] lets [None]
    through and hands anything else to [T]; the constraints bear on the
    string or the decimal inside. *)
Fixpoint check_value (kws : list kwarg) (t : ty) (v : raw) : option ErrorKind :=
  match t with
  | TOptional t' => match v with RNone => None | _ => check_value kws t' v end
  | TInt => match v with RInt _ => None | _ => Some int_type end
  | TStr => match v with RStr s => check_str kws s | _ => Some string_type end
  | TBool => match v with RBool _ => None | _ => Some bool_type end
  | TDatetime => match v with RDatetime _ => None | _ => Some datetime_type end
  | TDecimal => match v with RDecimal d => check_decimal kws d | _ => Some decimal_type end
  | TEnum _ vals =>
      match v with
      | RStr s => if bool_decide (s ∈ vals) then None else Some enum_error
      | _ => Some enum_error
      end
  | TList t' =>
      match v with
      | RList l => first_error (check_value [] t' <$> l)
      | _ => Some list_type
      end
  | TDictStrAny => match v with RDict _ => None | _ => Some dict_type end
  end.

(** One field of the input: a supplied value is checked, an absent one
    takes the default (which is not checked), and an absent required
    field is [missing]. *)
Definition validate_field (now : Z) (f : FieldDecl) (supplied : option raw)
  : ErrorKind + raw :=
  match supplied with
  | Some v =>
      match check_value (kwargs f) (annotation f) v with
      | Some e => inl e
      | None => inr v
      end
  | None =>
      match get_default now f with
      | Some d => inr d
      | None => inl missing
      end
  end.

(** All fields in declaration order: the errors found, and the attributes
    of the fields that passed.  Keys of the input that name no field are
    ignored. *)
Fixpoint validate_fields (now : Z) (fs : list FieldDecl) (data : gmap string raw)
  : list (string * ErrorKind) * gmap string raw :=
  match fs with
  | [] => ([], ∅)
  | f :: fs' =>
      let '(errs, inst) := validate_fields now fs' data in
      match validate_field now f (data !! fname f) with
      | inl e => ((fname f, e) :: errs, inst)
      | inr v => (errs, <[fname f := v]> inst)
      end
  end.

(** [cls.model_validate(data)]: the instance, or the errors of a
    [ValidationError]. *)
Definition model_validate (m : ModelDecl) (now : Z) (data : gmap string raw)
  : list (string * ErrorKind) + gmap string raw :=
  match validate_fields now (fields m) data with
  | ([], inst) => inr inst
  | (errs, _) => inl errs
  end.

(** The constructor of a [table=True] class, on the columns: supplied
    values are stored as they are, fields with a default take it, and a
    required field that was not supplied stays unset.  Keys that name a
    relationship, which the constructor hands to the ORM, are not
    followed here. *)
Fixpoint sqlmodel_table_construct (now : Z) (fs : list FieldDecl) (data : gmap string raw)
  : gmap string raw :=
  match fs with
  | [] => ∅
  | f :: fs' =>
      let inst := sqlmodel_table_construct now fs' data in
      match data !! fname f with
      | Some v => <[fname f := v]> inst
      | None =>
          match get_default now f with
          | Some d => <[fname f := d]> inst
          | None => inst
          end
      end
  end.

(** ** Equality of values *)

#[export] Instance Decimal_eq_dec : EqDecision Decimal.
Proof. solve_decision. Defined.

(** Structural induction on values that reaches inside lists and
    dictionaries. *)
Section raw_induction.
Variable P : raw -> Prop.
Hypothesis HNone : P RNone.
Hypothesis HBool : forall b, P (RBool b).
Hypothesis HInt : forall z, P (RInt z).
Hypothesis HStr : forall s, P (RStr s).
Hypothesis HDecimal : forall d, P (RDecimal d).
Hypothesis HDatetime : forall t, P (RDatetime t).
Hypothesis HList : forall l, Forall P l -> P (RList l).
Hypothesis HDict : forall d, Forall (fun kv => P kv.2) d -> P (RDict d).

Fixpoint raw_ind (v : raw) : P v :=
  match v with
  | RNone => HNone
  | RBool b => HBool b
  | RInt z => HInt z
  | RStr s => HStr s
  | RDecimal d => HDecimal d
  | RDatetime t => HDatetime t
  | RList l =>
      HList l
        ((fix elems (l : list raw) : Forall P l :=
            match l with
            | [] => @List.Forall_nil _ P
            | x :: l' => @List.Forall_cons _ P x l' (raw_ind x) (elems l')
            end) l)
  | RDict d =>
      HDict d
        ((fix items (d : list (string * raw)) : Forall (fun kv => P kv.2) d :=
            match d with
            | [] => @List.Forall_nil _ _
            | kv :: d' => @List.Forall_cons _ _ kv d' (raw_ind kv.2) (items d')
            end) d)
  end.
End raw_induction.

(** Structural equality of values.  On the integers and strings that
    key the tables of the module it is Python's [==] and SQL's [=]. *)
Fixpoint raw_eqb (a b : raw) : bool :=
  match a, b with
  | RNone, RNone => true
  | RBool x, RBool y => bool_decide (x = y)
  | RInt x, RInt y => bool_decide (x = y)
  | RStr x, RStr y => bool_decide (x = y)
  | RDecimal x, RDecimal y => bool_decide (x = y)
  | RDatetime x, RDatetime y => bool_decide (x = y)
  | RList x, RList y =>
      (fix elems (x y : list raw) : bool :=
         match x, y with
         | [], [] => true
         | a' :: x', b' :: y' => raw_eqb a' b' && elems x' y'
         | _, _ => false
         end) x y
  | RDict x, RDict y =>
      (fix items (x y : list (string * raw)) : bool :=
         match x, y with
         | [], [] => true
         | (k1, a') :: x', (k2, b') :: y' =>
             bool_decide (k1 = k2) && raw_eqb a' b' && items x' y'
         | _, _ => false
         end) x y
  | _, _ => false
  end.

(** ** The tables *)

(** A row is the attribute dictionary of an instance; a column the row
    does not set, or sets to [None], is NULL. *)
Definition is_null (c : option raw) : bool :=
  match c with
  | None | Some RNone => true
  | Some _ => false
  end.

Definition cell_eqb (a b : option raw) : bool :=
  match a, b with
  | Some x, Some y => raw_eqb x y
  | None, None => true
  | _, _ => false
  end.

Record Table := mkTable {
  rows : list (gmap string raw);
  next_id : Z;
}.

Definition empty_table : Table := mkTable [] 1.

Definition pk_fields (m : ModelDecl) : list FieldDecl :=
  List.filter is_primary_key (fields m).

(** A column given as [sa_column=Column(JSON)] is nullable, SQLAlchemy's
    default; any other column is nullable when it is no primary key and
    its annotation is [Optional]. *)
Definition nullable (f : FieldDecl) : bool :=
  has_sa_column f || (negb (is_primary_key f) && is_optional (annotation f)).

(** The column sets no two rows may agree on: the primary key, and each
    [unique=True] column. *)
Definition key_cols (m : ModelDecl) : list (list string) :=
  (fname <$> pk_fields m) :: ((fun f => [fname f]) <$> List.filter is_unique (fields m)).

(** Two rows agree on a column set when every column of it is set in the
    first and equal in both.  NULL agrees with nothing. *)
Definition agree (cols : list string) (r1 r2 : gmap string raw) : bool :=
  forallb (fun c => negb (is_null (r1 !! c)) && cell_eqb (r1 !! c) (r2 !! c)) cols.

Inductive IntegrityError :=
  | NotNullViolation (col : string)
  | UniqueViolation (cols : list string).

Definition not_null_error (m : ModelDecl) (r : gmap string raw) : option IntegrityError :=
  head (omap (fun f =>
    if negb (nullable f) && is_null (r !! fname f)
    then Some (NotNullViolation (fname f)) else None) (fields m)).

Definition unique_error (m : ModelDecl) (others : list (gmap string raw))
    (r : gmap string raw) : option IntegrityError :=
  head (omap (fun cols =>
    if existsb (agree cols r) others then Some (UniqueViolation cols) else None)
    (key_cols m)).

(** What the table checks of a row written next to the rows [others]. *)
Definition check_row (m : ModelDecl) (others : list (gmap string raw))
    (r : gmap string raw) : option IntegrityError :=
  match not_null_error m r with
  | Some e => Some e
  | None => unique_error m others r
  end.

(** A single primary-key column left unset is numbered by the table,
    from a counter that only this numbering advances, as a sequence
    does. *)
Definition autoincrement (m : ModelDecl) (t : Table) (r : gmap string raw)
  : gmap string raw * Z :=
  match pk_fields m with
  | [f] =>
      if is_null (r !! fname f)
      then (<[fname f := RInt (next_id t)]> r, (next_id t + 1)%Z)
      else (r, next_id t)
  | _ => (r, next_id t)
  end.

(** INSERT, as far as the constraints the class declares on its own
    table go: NOT NULL and the keys.  Foreign keys, which look at other
    tables, and the ranges of the column types are the database's and
    are not checked here. *)
Definition db_insert (m : ModelDecl) (t : Table) (r : gmap string raw)
  : IntegrityError + Table :=
  let '(r', n) := autoincrement m t r in
  match check_row m (rows t) r' with
  | Some e => inl e
  | None => inr (mkTable (rows t ++ [r']) n)
  end.

(** Overwriting the row at position [i]; no row there, nothing changes. *)
Definition db_update (m : ModelDecl) (t : Table) (i : nat) (r : gmap string raw)
  : IntegrityError + Table :=
  match rows t !! i with
  | None => inr t
  | Some _ =>
      match check_row m (delete i (rows t)) r with
      | Some e => inl e
      | None => inr (mkTable (<[i := r]> (rows t)) (next_id t))
      end
  end.

Definition db_delete (t : Table) (i : nat) : Table :=
  mkTable (delete i (rows t)) (next_id t).

Inductive stmt :=
  | INSERT (r : gmap string raw)
  | UPDATE (i : nat) (r : gmap string raw)
  | DELETE (i : nat).

Definition exec (m : ModelDecl) (t : Table) (s : stmt) : IntegrityError + Table :=
  match s with
  | INSERT r => db_insert m t r
  | UPDATE i r => db_update m t i r
  | DELETE i => inr (db_delete t i)
  end.

(** A statement the table refuses leaves it as it was. *)
Definition apply_stmt (m : ModelDecl) (t : Table) (s : stmt) : Table :=
  match exec m t s with
  | inr t' => t'
  | inl _ => t
  end.

(** The table after a history of statements on the empty table. *)
Definition run (m : ModelDecl) (history : list stmt) : Table :=
  fold_left (apply_stmt m) history empty_table.

(** The rows of a table are pairwise distinct on a column set. *)
Definition distinct_on (cols : list string) (rs : list (gmap string raw)) : Prop :=
  forall i j r1 r2, i <> j -> rs !! i = Some r1 -> rs !! j = Some r2 ->
    agree cols r1 r2 = false.

(** What every table of the class [m] keeps: no NULL in a column that is
    not nullable, and no two rows agreeing on a key. *)
Definition table_ok (m : ModelDecl) (rs : list (gmap string raw)) : Prop :=
  (forall r, r ∈ rs -> not_null_error m r = None) /\
  (forall cols, cols ∈ key_cols m -> distinct_on cols rs).

(** ** Surveys of the declarations *)

(** The annotations a length constraint bears on. *)
Definition str_annotation (t : ty) : bool :=
  match t with
  | TStr | TOptional TStr => true
  | _ => false
  end.

(** A field with [max_length] is a string, optional or not, without
    [min_length]. *)
Definition max_length_on_str (f : FieldDecl) : bool :=
  match get_max_length (kwargs f) with
  | Some _ =>
      str_annotation (annotation f) &&
      match get_min_length (kwargs f) with None => true | Some _ => false end
  | None => true
  end.

(** Every [min_length] of the module: class, field, bound. *)
Definition min_length_fields : list (string * string * nat) :=
  m ← all_models;
  f ← fields m;
  match get_min_length (kwargs f) with
  | Some n => [(cls m, fname f, n)]
  | None => []
  end.

(** A text of [n] characters. *)
Fixpoint text_of_length (n : nat) : string :=
  match n with
  | 0 => ""
  | S n' => String.append "x" (text_of_length n')
  end.

(** The enumeration a field is typed by, [Optional] or not. *)
Definition enum_of (t : ty) : option (string * list string) :=
  match t with
  | TEnum n vals | TOptional (TEnum n vals) => Some (n, vals)
  | _ => None
  end.

(** The seven enumerations of the module with their closed sets. *)
Definition declared_enums : list (string * list string) :=
  [ (enum_name UserType, values UserType);
    (enum_name AccountType, values AccountType);
    (enum_name CompanyType, values CompanyType);
    (enum_name CompanySize, values CompanySize);
    (enum_name PricingPlan, values PricingPlan);
    (enum_name QueryType, values QueryType);
    (enum_name Language, values Language) ].

(** The names under which fields of each enumeration occur. *)
Definition enum_field_names : list (string * string) :=
  [ ("user_type", "UserType"); ("account_type", "AccountType");
    ("company_type", "CompanyType"); ("company_size", "CompanySize");
    ("pricing_plan", "PricingPlan"); ("query_type", "QueryType");
    ("language", "Language"); ("preferred_language", "Language") ].

Definition enum_field_declared (f : FieldDecl) : bool :=
  match enum_of (annotation f) with
  | Some (n, vals) =>
      bool_decide ((n, vals) ∈ declared_enums) &&
      bool_decide ((fname f, n) ∈ enum_field_names)
  | None => true
  end.

(** The enumerations list every one of their members. *)
Class PyEnumComplete (E : Type) `{PyEnum E} :=
  members_complete : forall x : E, x ∈ members E.

(** ** Shapes of supplied values, as the field constraints word them *)

(** [None], or a string of at most [n] characters. *)
Definition str_within (n : nat) (v : raw) : Prop :=
  v = RNone \/ exists s, v = RStr s /\ str_len s <= n.

Definition language_or_None (v : raw) : Prop :=
  v = RNone \/ exists l : Language, v = RStr (value l).

Definition dict_or_None (v : raw) : Prop :=
  v = RNone \/ exists d, v = RDict d.

(** The value a field of an update ends with: the supplied one, else
    [None]. *)
Definition supplied_or_None (c : option raw) : raw :=
  match c with
  | Some v => v
  | None => RNone
  end.

(** The defaults of the plan-specific fields of [Subscription]. *)
Definition subscription_defaults : list (string * raw) :=
  [ ("tokens_used", RInt 0); ("total_tokens_consumed", RInt 0);
    ("token_allowance", RNone); ("week_pass_expires_at", RNone);
    ("week_pass_price", RNone); ("current_price_per_1k_tokens", RNone) ].

(** ** Sample inputs *)

Definition signup (password : string) : gmap string raw :=
  {[ "email" := RStr "ana@example.eu"; "password" := RStr password;
     "user_type" := RStr "b2c" ]}.

Definition question (text : string) : gmap string raw :=
  {[ "query_text" := RStr text; "query_type" := RStr "light"; "language" := RStr "en" ]}.

Definition sample_user (account_type : raw) : gmap string raw :=
  {[ "email" := RStr "ana@example.eu"; "password_hash" := RStr "2b12c0ffee";
     "user_type" := RStr "b2b"; "account_type" := account_type ]}.

Definition sample_update : gmap string raw :=
  {[ "home_location" := RStr "Sofia"; "preferred_language" := RStr "bg" ]}.

(** 9.99 and 0.0150 as [Decimal("9.99")] and [Decimal("0.0150")]. *)
Definition price_9_99 : Decimal := mkDecimal false [9; 9; 9] (-2).
Definition price_0_0150 : Decimal := mkDecimal false [1; 5; 0] (-4).

(** A subscription that fills the week-pass fields and the bestprice
    fields at once. *)
Definition both_groups (p : PricingPlan) : gmap string raw :=
  {[ "user_id" := RInt 1; "pricing_plan" := RStr (value p);
     "token_allowance" := RInt 100000; "tokens_used" := RInt 250;
     "week_pass_expires_at" := RDatetime 1767225600000000;
     "week_pass_price" := RDecimal price_9_99;
     "current_price_per_1k_tokens" := RDecimal price_0_0150;
     "total_tokens_consumed" := RInt 250 ]}.

(** A week pass of [allowance] tokens of which [used] are spent. *)
Definition week_pass (allowance used : Z) : gmap string raw :=
  {[ "user_id" := RInt 1; "pricing_plan" := RStr (value WEEK_PASS);
     "token_allowance" := RInt allowance; "tokens_used" := RInt used ]}.

Definition minimal_subscription (uid : Z) (p : PricingPlan) : gmap string raw :=
  {[ "user_id" := RInt uid; "pricing_plan" := RStr (value p) ]}.

(** Rows as the constructors of the table classes build them. *)
Definition context_of (uid : Z) : gmap string raw :=
  sqlmodel_table_construct 0 (fields UserContext)
    {[ "user_id" := RInt uid; "user_type_context" := RStr "company";
       "home_location" := RStr "Sofia"; "preferred_language" := RStr "bg";
       "profession" := RStr "lawyer" ]}.

Definition link (session document : Z) : gmap string raw :=
  sqlmodel_table_construct 0 (fields ChatSessionDocument)
    {[ "chat_session_id" := RInt session; "document_id" := RInt document ]}.

Definition user_of (email : string) : gmap string raw :=
  sqlmodel_table_construct 0 (fields User)
    {[ "email" := RStr email; "password_hash" := RStr "2b12c0ffee";
       "user_type" := RStr "b2c" ]}.

(** Histories in which the last statement repeats a key. *)
Definition contexts_history : list stmt :=
  [INSERT (context_of 1); INSERT (context_of 2); INSERT (context_of 1)].

Definition links_history : list stmt :=
  [INSERT (link 1 1); INSERT (link 1 2); INSERT (link 2 1); INSERT (link 1 2)].

Definition users_history : list stmt :=
  [INSERT (user_of "ana@example.eu"); INSERT (user_of "ben@example.eu");
   UPDATE 1 (<["id" := RInt 2]> (user_of "ana@example.eu"))].

(** The rows of a table holding a given value, or pair of values. *)
Definition rows_with (c : string) (v : raw) (t : Table) : list (gmap string raw) :=
  List.filter (fun r => cell_eqb (r !! c) (Some v)) (rows t).

Definition rows_with2 (c1 : string) (v1 : raw) (c2 : string) (v2 : raw) (t : Table)
  : list (gmap string raw) :=
  List.filter (fun r => cell_eqb (r !! c1) (Some v1) && cell_eqb (r !! c2) (Some v2)) (rows t).

(** ** Further readings of the declarations *)

(** The names of the fields an input must supply. *)
Definition required_names (m : ModelDecl) : list string :=
  fname <$> List.filter is_required (fields m).

(** A declared default passes the check of its own field. *)
Definition default_passes (f : FieldDecl) : bool :=
  match get_default 0 f with
  | Some d =>
      match check_value (kwargs f) (annotation f) d with
      | None => true
      | Some _ => false
      end
  | None => true
  end.

(** A primary key that may be left unset is the only primary key of its
    class, the one the table numbers. *)
Definition optional_pk_numbered (m : ModelDecl) : bool :=
  forallb (fun f =>
    negb (is_primary_key f) || negb (is_optional (annotation f)) ||
    match pk_fields m with
    | [g] => bool_decide (fname g = fname f)
    | _ => false
    end) (fields m).

(** ** Request shapes next to their tables *)

#[export] Instance ty_eq_dec : EqDecision ty.
Proof. solve_decision. Defined.

Definition find_field (m : ModelDecl) (n : string) : option FieldDecl :=
  List.find (fun g => bool_decide (fname g = n)) (fields m).

(** Two fields put the same demands on a value: the same annotation and
    the same bounds on lengths and digits. *)
Definition same_constraints (g f : FieldDecl) : bool :=
  bool_decide (annotation g = annotation f) &&
  bool_decide (get_min_length (kwargs g) = get_min_length (kwargs f)) &&
  bool_decide (get_max_length (kwargs g) = get_max_length (kwargs f)) &&
  bool_decide (get_max_digits (kwargs g) = get_max_digits (kwargs f)) &&
  bool_decide (get_decimal_places (kwargs g) = get_decimal_places (kwargs f)).

(** The table class [T] mirrors the shape [S]: a field of [T] that [S]
    also has puts the same demands on its value; of the others,
    [user_id] is an [int] and the rest have a default. *)
Definition mirrors (S T : ModelDecl) : bool :=
  match find_field S "user_id" with
  | Some _ => false
  | None =>
      forallb (fun f =>
        match find_field S (fname f) with
        | Some g => same_constraints g f
        | None =>
            if bool_decide (fname f = "user_id")
            then bool_decide (annotation f = TInt)
            else negb (is_required f)
        end) (fields T)
  end.

Definition mirrored_shapes : list (ModelDecl * ModelDecl) :=
  [ (UserContextCreate, UserContext); (OrganizationCreate, Organization);
    (QueryCreate, Query); (ChatSessionCreate, ChatSession) ].

(** ** Decimals as numbers *)






(** ** Lists *)

(** The elements the list fields of the module admit. *)
Definition element_of (t : ty) (x : raw) : Prop :=
  match t with
  | TInt => exists z, x = RInt z
  | TStr => exists s, x = RStr s
  | TDictStrAny => exists d, x = RDict d
  | _ => False
  end.

(** Every list field is a list of strings, integers or dictionaries
    that defaults to the empty list. *)
Definition list_field_declared (f : FieldDecl) : bool :=
  match annotation f with
  | TList t =>
      match t with TInt | TStr | TDictStrAny => true | _ => false end &&
      match get_default 0 f with Some (RList []) => true | _ => false end
  | _ => true
  end.

(** ** The schema as a whole *)

Definition get_foreign_key : list kwarg -> option string :=
  first_kw (fun k => match k with foreign_key target => Some target | _ => None end).

(** The name under which [foreign_key] refers to a column. *)
Definition column_ref (m : ModelDecl) (f : FieldDecl) : option string :=
  match tablename m with
  | Some t => Some (String.append t (String.append "." (fname f)))
  | None => None
  end.

Definition int_annotation (t : ty) : bool :=
  match t with
  | TInt | TOptional TInt => true
  | _ => false
  end.

(** [g] is the integer column that alone is the primary key of the
    table class [m'], and [target] names it. *)
Definition references (target : string) (m' : ModelDecl) (g : FieldDecl) : bool :=
  table m' && int_annotation (annotation g) &&
  match pk_fields m' with
  | [g'] => bool_decide (fname g' = fname g)
  | _ => false
  end &&
  bool_decide (column_ref m' g = Some target).

Definition foreign_key_resolves (m : ModelDecl) (f : FieldDecl) : bool :=
  match get_foreign_key (kwargs f) with
  | Some target =>
      table m && int_annotation (annotation f) &&
      existsb (fun m' => existsb (references target m') (fields m')) all_models
  | None => true
  end.

Definition find_model (name : string) : option ModelDecl :=
  List.find (fun m => bool_decide (cls m = name)) all_models.

Definition find_rel (m : ModelDecl) (name : string) : option RelDecl :=
  List.find (fun r => bool_decide (rname r = name)) (relationships m).

(** The class [m] holds a foreign key to the table of [t]. *)
Definition points_to (m t : ModelDecl) : bool :=
  existsb (fun f =>
    match get_foreign_key (kwargs f) with
    | Some target => existsb (references target t) (fields t)
    | None => false
    end) (fields m).

(** A relationship joins its class to a table class of the module, one
    of the two holding a foreign key to the other; the attribute its
    [back_populates] names is a relationship of the target that leads
    back, not both of them lists, and names this one in turn or names
    nothing. *)
Definition relationship_resolves (m : ModelDecl) (r : RelDecl) : bool :=
  match find_model (rtarget r) with
  | Some t =>
      table t && (points_to m t || points_to t m) &&
      match back_populates r with
      | Some b =>
          match find_rel t b with
          | Some r' =>
              bool_decide (rtarget r' = cls m) && negb (rmany r && rmany r') &&
              (bool_decide (back_populates r' = Some (rname r)) ||
               bool_decide (back_populates r' = None))
          | None => false
          end
      | None => true
      end
  | None => false
  end.

(** The relationships whose [back_populates] is not answered by one on
    the other side: class and attribute. *)
Definition one_sided : list (string * string) :=
  m ← all_models;
  r ← relationships m;
  match back_populates r, find_model (rtarget r) with
  | Some b, Some t =>
      match find_rel t b with
      | Some r' => if bool_decide (back_populates r' = None) then [(cls m, rname r)] else []
      | None => []
      end
  | _, _ => []
  end.

(** Every key column of a class is a column that is not nullable. *)
Definition keys_not_null (m : ModelDecl) : bool :=
  forallb (fun cols =>
    match cols with [] => false | _ => true end &&
    forallb (fun c =>
      existsb (fun f => bool_decide (fname f = c) && negb (nullable f)) (fields m)) cols)
    (key_cols m).

(** The keys of every table class. *)
Definition declared_keys : list (string * list (list string)) :=
  (fun m => (cls m, key_cols m)) <$> List.filter table all_models.

(** Rows of API keys, and a history whose last statement repeats a hash. *)
Definition apikey_of (key_hash : string) : gmap string raw :=
  sqlmodel_table_construct 0 (fields APIKey)
    {[ "key_hash" := RStr key_hash; "name" := RStr "ci"; "user_id" := RInt 1 ]}.

Definition apikeys_history : list stmt :=
  [INSERT (apikey_of "9f86d081"); INSERT (apikey_of "60303ae2");
   INSERT (apikey_of "9f86d081")].

(** * Properties *)

(** ** Equality of values is decided by [raw_eqb] *)

Lemma raw_eqb_eq (a b : raw) : raw_eqb a b = true <-> a = b.
Proof.
  revert b. induction a as [ | x | x | x | x | x | l IH | d IH ] using raw_ind;
    intros [ | y | y | y | y | y | l' | d' ]; simpl;
    try (split; [discriminate | discriminate]);
    try (rewrite bool_decide_eq_true; split; congruence).
  - tauto.
  - revert l'. induction IH as [ | x l Hx _ IHl ]; intros [ | y l']; try (split; congruence).
    rewrite andb_true_iff, Hx. specialize (IHl l'). split.
    + intros [-> Hl]. apply IHl in Hl. congruence.
    + intros [= -> ->]. split; [done | ]. apply IHl. done.
  - revert d'. induction IH as [ | [k x] d Hx _ IHd ]; intros [ | [k' y] d'];
      try (split; congruence).
    simpl in Hx. rewrite !andb_true_iff, bool_decide_eq_true, Hx.
    specialize (IHd d'). split.
    + intros [[-> ->] Hd]. apply IHd in Hd. congruence.
    + intros [= -> -> ->]. repeat split. apply IHd. done.
Qed.

Lemma cell_eqb_eq (a b : option raw) : cell_eqb a b = true <-> a = b.
Proof.
  destruct a as [x | ], b as [y | ]; simpl; try (split; congruence).
  rewrite raw_eqb_eq. split; congruence.
Qed.

(** Agreement is symmetric: an equal cell is null on both sides or on
    neither. *)
Lemma agree_sym cols (r1 r2 : gmap string raw) : agree cols r1 r2 = agree cols r2 r1.
Proof.
  unfold agree. apply eq_true_iff_eq. rewrite !forallb_forall.
  assert (Hone : forall (x y : gmap string raw) c,
    negb (is_null (x !! c)) && cell_eqb (x !! c) (y !! c) = true ->
    negb (is_null (y !! c)) && cell_eqb (y !! c) (x !! c) = true).
  { intros x y c [Hn He]%andb_true_iff. apply cell_eqb_eq in He.
    rewrite <- He, Hn. simpl. apply cell_eqb_eq. done. }
  split; intros H c Hc; apply Hone, H, Hc.
Qed.

(** Rows that do not agree on a single column differ there, once the
    first is set. *)
Lemma agree_single_false c (r1 r2 : gmap string raw) :
  agree [c] r1 r2 = false -> is_null (r1 !! c) = false -> r1 !! c <> r2 !! c.
Proof.
  unfold agree. simpl. rewrite andb_true_r. intros H Hn Heq.
  rewrite Hn in H. simpl in H.
  apply cell_eqb_eq in Heq. congruence.
Qed.

Lemma agree_pair_false c1 c2 (r1 r2 : gmap string raw) :
  agree [c1; c2] r1 r2 = false ->
  is_null (r1 !! c1) = false -> is_null (r1 !! c2) = false ->
  (r1 !! c1, r1 !! c2) <> (r2 !! c1, r2 !! c2).
Proof.
  unfold agree. simpl. rewrite andb_true_r. intros H Hn1 Hn2 [= H1 H2].
  rewrite Hn1, Hn2 in H. simpl in H.
  apply cell_eqb_eq in H1, H2. rewrite H1, H2 in H. discriminate.
Qed.

(** ** Rows pairwise distinct on a column set *)

Lemma distinct_on_nil cols : distinct_on cols [].
Proof. intros i j r1 r2 _ H. rewrite lookup_nil in H. discriminate. Qed.

Lemma distinct_on_snoc cols rs r :
  distinct_on cols rs ->
  (forall r', r' ∈ rs -> agree cols r r' = false) ->
  distinct_on cols (rs ++ [r]).
Proof.
  intros Hd Hnew i j r1 r2 Hij H1 H2.
  apply lookup_snoc_Some in H1 as [[Hi H1] | [Hi <-]];
    apply lookup_snoc_Some in H2 as [[Hj H2] | [Hj <-]].
  - apply (Hd i j); done.
  - rewrite agree_sym. apply Hnew. apply (list_elem_of_lookup_2 rs i). done.
  - apply Hnew. apply (list_elem_of_lookup_2 rs j). done.
  - lia.
Qed.

Lemma lookup_delete_Some (rs : list (gmap string raw)) i j r :
  delete i rs !! j = Some r ->
  rs !! (if decide (j < i) then j else S j) = Some r.
Proof.
  intros H. destruct (decide (j < i)).
  - rewrite list_lookup_delete_lt in H by done. done.
  - rewrite list_lookup_delete_ge in H by lia. done.
Qed.

Lemma distinct_on_delete cols rs i :
  distinct_on cols rs -> distinct_on cols (delete i rs).
Proof.
  intros Hd j k r1 r2 Hjk H1 H2.
  apply lookup_delete_Some in H1, H2.
  eapply Hd; [ | exact H1 | exact H2 ].
  repeat case_decide; lia.
Qed.

Lemma elem_of_delete_other (rs : list (gmap string raw)) i j r :
  i <> j -> rs !! j = Some r -> r ∈ delete i rs.
Proof.
  intros Hij H. apply list_elem_of_lookup.
  destruct (decide (j < i)).
  - exists j. rewrite list_lookup_delete_lt by done. done.
  - exists (pred j). rewrite list_lookup_delete_ge by lia.
    replace (S (pred j)) with j by lia. done.
Qed.

Lemma distinct_on_insert cols rs i r :
  distinct_on cols rs ->
  (forall r', r' ∈ delete i rs -> agree cols r r' = false) ->
  distinct_on cols (<[i := r]> rs).
Proof.
  intros Hd Hnew j k r1 r2 Hjk H1 H2.
  apply list_lookup_insert_Some in H1 as [(Hi & Hr & _) | [Hj H1]];
    apply list_lookup_insert_Some in H2 as [(Hi' & Hr' & _) | [Hk H2]].
  - congruence.
  - subst r1. apply Hnew. apply (elem_of_delete_other rs i k); done.
  - subst r2. rewrite agree_sym. apply Hnew. apply (elem_of_delete_other rs i j); done.
  - apply (Hd j k); done.
Qed.

(** ** The constraints hold after every history *)

Lemma head_omap_None {A B} (f : A -> option B) (l : list A) :
  head (omap f l) = None -> forall x, x ∈ l -> f x = None.
Proof.
  induction l as [ | a l IH]; intros H x Hx.
  - inversion Hx.
  - simpl in H. destruct (f a) eqn:Hfa; [discriminate | ].
    apply elem_of_cons in Hx as [-> | Hx]; [done | by apply IH].
Qed.

Lemma not_null_error_None m r f :
  not_null_error m r = None -> f ∈ fields m -> nullable f = false ->
  is_null (r !! fname f) = false.
Proof.
  intros H Hf Hn. pose proof (head_omap_None _ _ H f Hf) as Hc.
  simpl in Hc. rewrite Hn in Hc. simpl in Hc.
  destruct (is_null (r !! fname f)); [discriminate | done].
Qed.

Lemma unique_error_None m others r cols r' :
  unique_error m others r = None -> cols ∈ key_cols m -> r' ∈ others ->
  agree cols r r' = false.
Proof.
  intros H Hc Hr. pose proof (head_omap_None _ _ H cols Hc) as He.
  simpl in He. destruct (existsb (agree cols r) others) eqn:Hex; [discriminate | ].
  destruct (agree cols r r') eqn:Ha; [ | done].
  assert (existsb (agree cols r) others = true); [ | congruence].
  apply existsb_exists. exists r'. split; [by apply list_elem_of_In | done].
Qed.

Lemma check_row_None m others r :
  check_row m others r = None ->
  not_null_error m r = None /\ unique_error m others r = None.
Proof.
  unfold check_row. destruct (not_null_error m r); [discriminate | done].
Qed.

Lemma table_ok_empty m : table_ok m [].
Proof.
  split; [intros r Hr; inversion Hr | intros cols _; apply distinct_on_nil].
Qed.

Lemma table_ok_snoc m rs r :
  table_ok m rs -> check_row m rs r = None -> table_ok m (rs ++ [r]).
Proof.
  intros [Hnn Hd] [Hn Hu]%check_row_None. split.
  - intros r' [Hr | ->%list_elem_of_singleton]%elem_of_app; auto.
  - intros cols Hc. apply distinct_on_snoc; [by apply Hd | ].
    intros r' Hr. by apply (unique_error_None m rs).
Qed.

Lemma table_ok_delete m rs i : table_ok m rs -> table_ok m (delete i rs).
Proof.
  intros [Hnn Hd]. split.
  - intros r Hr. apply Hnn. by eapply list_elem_of_delete_inv.
  - intros cols Hc. by apply distinct_on_delete, Hd.
Qed.

Lemma table_ok_insert m rs i r :
  table_ok m rs -> check_row m (delete i rs) r = None -> table_ok m (<[i := r]> rs).
Proof.
  intros [Hnn Hd] [Hn Hu]%check_row_None. split.
  - intros r' [j Hj]%list_elem_of_lookup.
    apply list_lookup_insert_Some in Hj as [(_ & <- & _) | [_ Hj]]; [done | ].
    apply Hnn. by eapply list_elem_of_lookup_2.
  - intros cols Hc. apply distinct_on_insert; [by apply Hd | ].
    intros r' Hr. by apply (unique_error_None m (delete i rs)).
Qed.

Lemma apply_stmt_ok m t s : table_ok m (rows t) -> table_ok m (rows (apply_stmt m t s)).
Proof.
  intros Hok. unfold apply_stmt. destruct s as [r | i r | i]; simpl.
  - unfold db_insert. destruct (autoincrement m t r) as [r' n].
    destruct (check_row m (rows t) r') eqn:Hc; [done | ].
    simpl. by apply table_ok_snoc.
  - unfold db_update. destruct (rows t !! i); [ | done].
    destruct (check_row m (delete i (rows t)) r) eqn:Hc; [done | ].
    simpl. by apply table_ok_insert.
  - by apply table_ok_delete.
Qed.

Lemma run_ok m history : table_ok m (rows (run m history)).
Proof.
  unfold run. generalize (table_ok_empty m). change [] with (rows empty_table).
  generalize empty_table. induction history as [ | s history IH]; intros t Hok; simpl.
  - done.
  - apply IH. by apply apply_stmt_ok.
Qed.

(** Among rows pairwise distinct on [cols], at most one satisfies a
    test that makes any two rows passing it agree on [cols]. *)
Lemma distinct_on_count cols (P : gmap string raw -> bool) (rs : list (gmap string raw)) :
  (forall r r', P r = true -> P r' = true -> agree cols r r' = true) ->
  distinct_on cols rs ->
  length (List.filter P rs) <= 1.
Proof.
  intros HP. induction rs as [ | r rs IH]; intros Hd; simpl; [lia | ].
  assert (Hd' : distinct_on cols rs).
  { intros i j r1 r2 Hij H1 H2. apply (Hd (S i) (S j)); [lia | done | done]. }
  destruct (P r) eqn:Hr; [ | by apply IH].
  assert (Hnone : List.filter P rs = []).
  { destruct (List.filter P rs) as [ | r' l] eqn:Hf; [done | exfalso].
    assert (Hin : In r' (List.filter P rs)) by (rewrite Hf; by left).
    apply filter_In in Hin as [[j Hj]%list_elem_of_In%list_elem_of_lookup Hr'].
    pose proof (Hd 0 (S j) r r' ltac:(lia) eq_refl Hj) as Ha.
    rewrite (HP r r' Hr Hr') in Ha. discriminate. }
  simpl. rewrite Hnone. simpl. lia.
Qed.

Lemma run_not_null m history r f :
  r ∈ rows (run m history) -> f ∈ fields m -> nullable f = false ->
  is_null (r !! fname f) = false.
Proof.
  intros Hr Hf Hn. destruct (run_ok m history) as [Hnn _].
  by apply (not_null_error_None m r f); [apply Hnn | | ].
Qed.

Lemma run_distinct m history cols :
  cols ∈ key_cols m -> distinct_on cols (rows (run m history)).
Proof. intros Hc. destruct (run_ok m history) as [_ Hd]. by apply Hd. Qed.

(** Two rows holding the same set value in a column agree on it. *)
Lemma agree_on_value c v (r r' : gmap string raw) :
  v <> RNone ->
  cell_eqb (r !! c) (Some v) = true -> cell_eqb (r' !! c) (Some v) = true ->
  negb (is_null (r !! c)) && cell_eqb (r !! c) (r' !! c) = true.
Proof.
  intros Hv ->%cell_eqb_eq ->%cell_eqb_eq. apply andb_true_iff. split.
  - by destruct v.
  - by apply cell_eqb_eq.
Qed.

(** ** How [model_validate] assembles the field results *)

Lemma validate_fields_errors now fs data n e :
  (n, e) ∈ (validate_fields now fs data).1 <->
  exists f, f ∈ fs /\ fname f = n /\ validate_field now f (data !! fname f) = inl e.
Proof.
  induction fs as [ | f fs IH]; simpl.
  - split; [intros H; inversion H | intros (f & H & _); inversion H].
  - destruct (validate_fields now fs data) as [errs inst]. simpl in IH.
    destruct (validate_field now f (data !! fname f)) as [e' | v] eqn:Hf; simpl.
    + rewrite elem_of_cons, IH. split.
      * intros [[= -> ->] | (g & Hg & Hn & Hv)].
        -- exists f. rewrite elem_of_cons. auto.
        -- exists g. rewrite elem_of_cons. auto.
      * intros (g & [-> | Hg]%elem_of_cons & Hn & Hv).
        -- left. congruence.
        -- right. eauto.
    + rewrite IH. split.
      * intros (g & Hg & Hn & Hv). exists g. rewrite elem_of_cons. auto.
      * intros (g & [-> | Hg]%elem_of_cons & Hn & Hv); [congruence | eauto].
Qed.

Lemma validate_fields_lookup now fs data f v :
  NoDup (fname <$> fs) -> f ∈ fs ->
  validate_field now f (data !! fname f) = inr v ->
  (validate_fields now fs data).2 !! fname f = Some v.
Proof.
  induction fs as [ | g fs IH]; simpl; intros Hnd Hf Hv; [inversion Hf | ].
  apply NoDup_cons in Hnd as [Hg Hnd].
  destruct (validate_fields now fs data) as [errs inst]. simpl in IH.
  apply elem_of_cons in Hf as [-> | Hf].
  - rewrite Hv. simpl. apply lookup_insert_eq.
  - assert (fname g <> fname f).
    { intros Heq. apply Hg. rewrite Heq. by apply list_elem_of_fmap_2. }
    destruct (validate_field now g (data !! fname g)); simpl;
      [ | rewrite lookup_insert_ne by done]; by apply IH.
Qed.

Lemma model_validate_inl m now data errs :
  model_validate m now data = inl errs ->
  errs = (validate_fields now (fields m) data).1.
Proof.
  unfold model_validate. destruct (validate_fields now (fields m) data) as [[ | e l] inst];
    [discriminate | ]. by intros [= <-].
Qed.

Lemma model_validate_inr m now data inst :
  model_validate m now data = inr inst ->
  (validate_fields now (fields m) data).1 = [] /\
  inst = (validate_fields now (fields m) data).2.
Proof.
  unfold model_validate. destruct (validate_fields now (fields m) data) as [[ | e l] i];
    [ | discriminate]. by intros [= <-].
Qed.

(** An input without errors yields the instance of the field results. *)
Lemma model_validate_ok m now data :
  (validate_fields now (fields m) data).1 = [] ->
  model_validate m now data = inr (validate_fields now (fields m) data).2.
Proof.
  unfold model_validate. destruct (validate_fields now (fields m) data) as [errs inst].
  simpl. by intros ->.
Qed.

(** A field that fails makes the whole input fail, with that error. *)
Lemma model_validate_rejects m now data f e :
  f ∈ fields m -> validate_field now f (data !! fname f) = inl e ->
  exists errs, model_validate m now data = inl errs /\ (fname f, e) ∈ errs.
Proof.
  intros Hf He.
  assert (Hin : (fname f, e) ∈ (validate_fields now (fields m) data).1).
  { apply validate_fields_errors. eauto. }
  unfold model_validate. destruct (validate_fields now (fields m) data) as [[ | e' l] inst].
  - inversion Hin.
  - eauto.
Qed.

(** An input all of whose fields pass is accepted. *)
Lemma model_validate_accepts m now data :
  (forall f, f ∈ fields m -> exists v, validate_field now f (data !! fname f) = inr v) ->
  exists inst, model_validate m now data = inr inst.
Proof.
  intros Hall. unfold model_validate.
  destruct (validate_fields now (fields m) data) as [[ | [n e] l] inst] eqn:Hv; [eauto | ].
  assert (Hin : (n, e) ∈ (validate_fields now (fields m) data).1).
  { rewrite Hv. simpl. apply elem_of_cons. auto. }
  apply validate_fields_errors in Hin as (f & Hf & _ & He).
  destruct (Hall f Hf) as [v Hfv]. congruence.
Qed.

(** The accepted instance holds what each field's check returned. *)
Lemma model_validate_lookup m now data inst f v :
  NoDup (fname <$> fields m) -> model_validate m now data = inr inst ->
  f ∈ fields m -> validate_field now f (data !! fname f) = inr v ->
  inst !! fname f = Some v.
Proof.
  intros Hnd [_ ->]%model_validate_inr Hf Hv. by apply validate_fields_lookup.
Qed.

(** A field that passes is named by no error. *)
Lemma model_validate_no_error m now data errs f v e :
  NoDup (fname <$> fields m) -> model_validate m now data = inl errs ->
  f ∈ fields m -> validate_field now f (data !! fname f) = inr v ->
  (fname f, e) ∉ errs.
Proof.
  intros Hnd ->%model_validate_inl Hf Hv (g & Hg & Hn & He)%validate_fields_errors.
  assert (g = f); [ | congruence].
  clear He Hv. induction (fields m) as [ | h l IH]; [inversion Hf | ].
  simpl in Hnd. apply NoDup_cons in Hnd as [Hh Hnd].
  apply elem_of_cons in Hf as [-> | Hf]; apply elem_of_cons in Hg as [-> | Hg]; auto.
  - exfalso. apply Hh. rewrite <- Hn. by apply list_elem_of_fmap_2.
  - exfalso. apply Hh. rewrite Hn. by apply list_elem_of_fmap_2.
Qed.

(** No class of the module declares a field name twice. *)
Lemma declared_names_NoDup m : m ∈ all_models -> NoDup (fname <$> fields m).
Proof.
  revert m. apply Forall_forall. apply (bool_decide_unpack _). vm_compute. exact I.
Qed.

(** The constructor of a table class stores what it is given and the
    defaults of what it is not. *)
Lemma sqlmodel_table_construct_other now fs data k :
  k ∉ fname <$> fs -> sqlmodel_table_construct now fs data !! k = None.
Proof.
  induction fs as [ | g fs IH]; simpl; intros Hk; [apply lookup_empty | ].
  apply not_elem_of_cons in Hk as [Hg Hk].
  destruct (data !! fname g); [ | destruct (get_default now g)];
    rewrite ?lookup_insert_ne by done; by apply IH.
Qed.

Lemma sqlmodel_table_construct_lookup now fs data f :
  NoDup (fname <$> fs) -> f ∈ fs ->
  sqlmodel_table_construct now fs data !! fname f =
    match data !! fname f with
    | Some v => Some v
    | None => get_default now f
    end.
Proof.
  induction fs as [ | g fs IH]; simpl; intros Hnd Hf; [inversion Hf | ].
  apply NoDup_cons in Hnd as [Hg Hnd].
  apply elem_of_cons in Hf as [-> | Hf].
  - destruct (data !! fname g); [apply lookup_insert_eq | ].
    destruct (get_default now g) eqn:Hd; [apply lookup_insert_eq | ].
    by apply sqlmodel_table_construct_other.
  - assert (fname g <> fname f).
    { intros Heq. apply Hg. rewrite Heq. by apply list_elem_of_fmap_2. }
    destruct (data !! fname g); [ | destruct (get_default now g)];
      rewrite ?lookup_insert_ne by done; by apply IH.
Qed.

(** ** Length constraints *)

Lemma max_length_fields_are_str m f n :
  m ∈ all_models -> f ∈ fields m -> get_max_length (kwargs f) = Some n ->
  str_annotation (annotation f) = true /\ get_min_length (kwargs f) = None.
Proof.
  intros Hm Hf Hn.
  assert (Hall : forallb (fun m => forallb max_length_on_str (fields m)) all_models = true)
    by reflexivity.
  rewrite forallb_forall in Hall. apply list_elem_of_In, Hall in Hm.
  rewrite forallb_forall in Hm. apply list_elem_of_In, Hm in Hf.
  unfold max_length_on_str in Hf. rewrite Hn in Hf.
  apply andb_true_iff in Hf as [Ha Hmin]. split; [done | ].
  by destruct (get_min_length (kwargs f)).
Qed.

(** What a string field, optional or not, answers to a string. *)
Lemma validate_str_field now f s :
  str_annotation (annotation f) = true ->
  validate_field now f (Some (RStr s)) =
    match check_str (kwargs f) s with
    | Some e => inl e
    | None => inr (RStr s)
    end.
Proof.
  unfold validate_field. destruct (annotation f) as [ | | | | | | | | [ ] ]; try discriminate; done.
Qed.

(** A string has no more characters than bytes. *)
Lemma str_len_le s : str_len s <= String.length s.
Proof.
  induction s as [ | a s IH]; simpl; [done | ].
  destruct (is_continuation a); simpl; lia.
Qed.

Ltac in_list := repeat first [apply list_elem_of_here | apply list_elem_of_further].

(** C9: [UserCreate.password] carries [min_length=8], the only lower
    bound on a length in the module.  An input whose password has fewer
    than 8 characters is rejected with [string_too_short]; a password of 8
    characters or more passes the check of that field, and no error of the
    input names it.  Characters are counted as Python counts them, not
    bytes. *)
Theorem UserCreate_password_min_length now (data : gmap string raw) s :
  data !! "password" = Some (RStr s) ->
  (str_len s < 8 ->
     exists errs, model_validate UserCreate now data = inl errs /\
                  ("password", string_too_short) ∈ errs) /\
  (8 <= str_len s ->
     validate_field now (mkField "password" TStr [min_length 8]) (data !! "password")
       = inr (RStr s) /\
     forall errs e, model_validate UserCreate now data = inl errs -> ("password", e) ∉ errs) /\
  min_length_fields = [("UserCreate", "password", 8)].
Proof.
  intros Hpw.
  set (f := mkField "password" TStr [min_length 8]).
  assert (Hf : f ∈ fields UserCreate) by in_list.
  assert (Hv : validate_field now f (data !! fname f) =
               if (str_len s <? 8)%nat then inl string_too_short else inr (RStr s)).
  { simpl. rewrite Hpw. unfold validate_field. simpl. unfold check_str.
    change (too_short [min_length 8] s) with (str_len s <? 8)%nat.
    by destruct (str_len s <? 8)%nat. }
  split; [ | split; [ | reflexivity]].
  - intros Hlt. apply Nat.ltb_lt in Hlt. rewrite Hlt in Hv.
    by apply (model_validate_rejects UserCreate now data f).
  - intros Hge. apply Nat.ltb_ge in Hge. rewrite Hge in Hv. split; [exact Hv | ].
    intros errs e Herrs.
    apply (model_validate_no_error UserCreate now data errs f (RStr s) e); try done.
    apply declared_names_NoDup. in_list.
Qed.

Lemma UserCreate_password_min_length_witness :
  (exists errs, model_validate UserCreate 0 (signup "1234567") = inl errs /\
                ("password", string_too_short) ∈ errs) /\
  (exists errs, model_validate UserCreate 0 (signup "парола1") = inl errs /\
                ("password", string_too_short) ∈ errs) /\
  validate_field 0 (mkField "password" TStr [min_length 8]) (signup "12345678" !! "password")
    = inr (RStr "12345678") /\
  validate_field 0 (mkField "password" TStr [min_length 8]) (signup "парола12" !! "password")
    = inr (RStr "парола12").
Proof.
  split; [ | split; [ | split]].
  - apply (UserCreate_password_min_length 0%Z (signup "1234567") "1234567");
      [reflexivity | simpl; lia].
  - apply (UserCreate_password_min_length 0%Z (signup "парола1") "парола1");
      [reflexivity | simpl; lia].
  - apply (UserCreate_password_min_length 0%Z (signup "12345678") "12345678");
      [reflexivity | simpl; lia].
  - apply (UserCreate_password_min_length 0%Z (signup "парола12") "парола12");
      [reflexivity | simpl; lia].
Defined.

(** C4: in every class of the module, a string longer than the
    [max_length] of its field makes the input fail with
    [string_too_long], and a string within the bound passes the field and
    is named by no error.  For [QueryCreate] the bound on [query_text] is
    5000 characters, and a question within it, of a declared type and
    language, is accepted.  Characters are counted as Python counts
    them, not bytes. *)
Theorem max_length_enforced :
  (forall m f n now (data : gmap string raw) s,
     m ∈ all_models -> f ∈ fields m -> get_max_length (kwargs f) = Some n ->
     data !! fname f = Some (RStr s) ->
     (n < str_len s ->
        exists errs, model_validate m now data = inl errs /\
                     (fname f, string_too_long) ∈ errs) /\
     (str_len s <= n ->
        validate_field now f (data !! fname f) = inr (RStr s) /\
        forall errs e, model_validate m now data = inl errs -> (fname f, e) ∉ errs)) /\
  (forall now (data : gmap string raw) s,
     data !! "query_text" = Some (RStr s) ->
     (5000 < str_len s ->
        exists errs, model_validate QueryCreate now data = inl errs /\
                     ("query_text", string_too_long) ∈ errs) /\
     (str_len s <= 5000 ->
        (forall errs e, model_validate QueryCreate now data = inl errs ->
                        ("query_text", e) ∉ errs) /\
        forall (q : QueryType) (l : Language),
          data !! "query_type" = Some (RStr (value q)) ->
          data !! "language" = Some (RStr (value l)) ->
          data !! "chat_session_id" = None ->
          exists inst, model_validate QueryCreate now data = inr inst /\
                       inst !! "query_text" = Some (RStr s))).
Proof.
  assert (General : forall m f n now (data : gmap string raw) s,
     m ∈ all_models -> f ∈ fields m -> get_max_length (kwargs f) = Some n ->
     data !! fname f = Some (RStr s) ->
     (n < str_len s ->
        exists errs, model_validate m now data = inl errs /\
                     (fname f, string_too_long) ∈ errs) /\
     (str_len s <= n ->
        validate_field now f (data !! fname f) = inr (RStr s) /\
        forall errs e, model_validate m now data = inl errs -> (fname f, e) ∉ errs)).
  { intros m f n now data s Hm Hf Hn Hs.
    destruct (max_length_fields_are_str m f n Hm Hf Hn) as [Hstr Hmin].
    assert (Hv : validate_field now f (data !! fname f) =
                 if (n <? str_len s)%nat then inl string_too_long else inr (RStr s)).
    { rewrite Hs, validate_str_field by done.
      unfold check_str, too_short, too_long. rewrite Hmin, Hn.
      by destruct (n <? str_len s)%nat. }
    split.
    - intros Hlt. apply Nat.ltb_lt in Hlt. rewrite Hlt in Hv.
      by apply model_validate_rejects.
    - intros Hle. apply Nat.ltb_ge in Hle. rewrite Hle in Hv. split; [exact Hv | ].
      intros errs e Herrs.
      apply (model_validate_no_error m now data errs f (RStr s) e); try done.
      by apply declared_names_NoDup. }
  split; [exact General | ].
  intros now data s Hs.
  set (f := mkField "query_text" TStr [max_length 5000]).
  assert (Hm : QueryCreate ∈ all_models) by in_list.
  assert (Hf : f ∈ fields QueryCreate) by in_list.
  destruct (General QueryCreate f 5000 now data s Hm Hf eq_refl Hs) as [Hlong Hshort].
  split; [exact Hlong | ].
  intros Hle. destruct (Hshort Hle) as [Hv Hnone]. split; [exact Hnone | ].
  intros q l Hq Hl Hc.
  destruct (model_validate_accepts QueryCreate now data) as [inst Hinst].
  { intros g Hg. simpl in Hg.
    repeat (apply elem_of_cons in Hg as [-> | Hg]); [ | | | | inversion Hg]; simpl.
    - eexists. exact Hv.
    - rewrite Hq. destruct q; eexists; reflexivity.
    - rewrite Hl. destruct l; eexists; reflexivity.
    - rewrite Hc. eexists; reflexivity. }
  exists inst. split; [done | ].
  apply (model_validate_lookup QueryCreate now data inst f); try done.
  by apply declared_names_NoDup.
Qed.

Lemma max_length_enforced_witness :
  (exists errs, model_validate QueryCreate 0 (question (text_of_length (S 5000))) = inl errs /\
                ("query_text", string_too_long) ∈ errs) /\
  (exists inst, model_validate QueryCreate 0 (question (text_of_length 5000)) = inr inst /\
                inst !! "query_text" = Some (RStr (text_of_length 5000))) /\
  validate_field 0 (mkField "currency" TStr [default (RStr "EUR"); max_length 3])
    (({[ "currency" := RStr "лев" ]} : gmap string raw) !! "currency") = inr (RStr "лев").
Proof.
  split; [ | split].
  - apply (proj2 max_length_enforced 0%Z (question (text_of_length (S 5000)))
             (text_of_length (S 5000)));
      [vm_compute; reflexivity | apply Nat.ltb_lt; vm_compute; reflexivity].
  - apply (proj2 max_length_enforced 0%Z (question (text_of_length 5000))
             (text_of_length 5000)) with (q := LIGHT) (l := EN);
      [vm_compute; reflexivity | apply Nat.leb_le; vm_compute; reflexivity
      | reflexivity | reflexivity | reflexivity].
  - apply (proj1 max_length_enforced BillingRecord
             (mkField "currency" TStr [default (RStr "EUR"); max_length 3]) 3 0%Z
             ({[ "currency" := RStr "лев" ]} : gmap string raw) "лев");
      [in_list | in_list | reflexivity | reflexivity | simpl; lia].
Defined.

(** ** Enumerations *)

#[export] Instance UserType_complete : PyEnumComplete UserType.
Proof. intros []; in_list. Qed.
#[export] Instance AccountType_complete : PyEnumComplete AccountType.
Proof. intros []; in_list. Qed.
#[export] Instance CompanyType_complete : PyEnumComplete CompanyType.
Proof. intros []; in_list. Qed.
#[export] Instance CompanySize_complete : PyEnumComplete CompanySize.
Proof. intros []; in_list. Qed.
#[export] Instance PricingPlan_complete : PyEnumComplete PricingPlan.
Proof. intros []; in_list. Qed.
#[export] Instance QueryType_complete : PyEnumComplete QueryType.
Proof. intros []; in_list. Qed.
#[export] Instance Language_complete : PyEnumComplete Language.
Proof. intros []; in_list. Qed.

(** The closed set of an enumeration is exactly the strings of its
    members. *)
Lemma values_spec (E : Type) `{PyEnumComplete E} (s : string) :
  s ∈ values E <-> exists x : E, s = value x.
Proof.
  unfold values. rewrite list_elem_of_fmap. split.
  - intros (x & -> & _). eauto.
  - intros [x ->]. exists x. split; [done | apply members_complete].
Qed.

Lemma enum_fields_declared m f n vals :
  m ∈ all_models -> f ∈ fields m -> enum_of (annotation f) = Some (n, vals) ->
  (n, vals) ∈ declared_enums /\ (fname f, n) ∈ enum_field_names.
Proof.
  intros Hm Hf He.
  assert (Hall : forallb (fun m => forallb enum_field_declared (fields m)) all_models = true)
    by (vm_compute; reflexivity).
  rewrite forallb_forall in Hall. apply list_elem_of_In, Hall in Hm.
  rewrite forallb_forall in Hm. apply list_elem_of_In, Hm in Hf.
  unfold enum_field_declared in Hf. rewrite He in Hf.
  apply andb_true_iff in Hf as [H1 H2].
  split; eapply bool_decide_unpack; by apply Is_true_true.
Qed.

(** What a field typed by an enumeration answers. *)
Lemma validate_enum_field now f n vals v :
  enum_of (annotation f) = Some (n, vals) ->
  validate_field now f (Some v) =
    match v with
    | RStr s => if bool_decide (s ∈ vals) then inr v else inl enum_error
    | RNone => if is_optional (annotation f) then inr RNone else inl enum_error
    | _ => inl enum_error
    end.
Proof.
  unfold validate_field.
  destruct (annotation f) as [ | | | | | n' vals' | | | [ | | | | | n' vals' | | | ] ];
    try discriminate; intros [= -> ->]; simpl;
    destruct v; try done; by case_bool_decide.
Qed.

(** C2, as amended: a field typed by an enumeration accepts every
    string of the closed set of that enumeration and rejects every other
    value but [None], with an [enum] error that fails the whole input.
    [None] is rejected by a field whose annotation is the enumeration
    itself and accepted by one whose annotation is [Optional]
    (User.account_type, Document.language, DocumentUpload.language,
    UserContextUpdate.preferred_language).  The enumeration is one of
    the seven of the module, and the field is named user_type,
    account_type, company_type, company_size, pricing_plan, query_type,
    language or preferred_language. *)
Theorem enum_fields_closed m f n vals now :
  m ∈ all_models -> f ∈ fields m -> enum_of (annotation f) = Some (n, vals) ->
  (n, vals) ∈ declared_enums /\
  (fname f, n) ∈ enum_field_names /\
  (forall s, s ∈ vals -> validate_field now f (Some (RStr s)) = inr (RStr s)) /\
  (forall v, v <> RNone -> (forall s, s ∈ vals -> v <> RStr s) ->
     validate_field now f (Some v) = inl enum_error /\
     forall data : gmap string raw, data !! fname f = Some v ->
       exists errs, model_validate m now data = inl errs /\
                    (fname f, enum_error) ∈ errs) /\
  validate_field now f (Some RNone) =
    if is_optional (annotation f) then inr RNone else inl enum_error.
Proof.
  intros Hm Hf He.
  destruct (enum_fields_declared m f n vals Hm Hf He) as [Hd Hn].
  split; [done | split; [done | split; [ | split]]].
  - intros s Hs. rewrite (validate_enum_field now f n vals) by done.
    by rewrite bool_decide_eq_true_2.
  - intros v Hv Hout.
    assert (Hrej : validate_field now f (Some v) = inl enum_error).
    { rewrite (validate_enum_field now f n vals) by done.
      destruct v as [ | | | s | | | | ]; try done.
      rewrite bool_decide_eq_false_2; [done | ].
      intros Hs. by apply (Hout s). }
    split; [exact Hrej | ].
    intros data Hdata. apply model_validate_rejects; [done | by rewrite Hdata].
  - by rewrite (validate_enum_field now f n vals).
Qed.

Lemma enum_fields_closed_witness :
  validate_field 0 (mkField "pricing_plan" (TEnumOf PricingPlan) [])
    (Some (RStr "bestprice")) = inr (RStr "bestprice") /\
  validate_field 0 (mkField "pricing_plan" (TEnumOf PricingPlan) [])
    (Some (RStr "BESTPRICE")) = inl enum_error /\
  validate_field 0 (mkField "pricing_plan" (TEnumOf PricingPlan) [])
    (Some RNone) = inl enum_error.
Proof.
  pose proof (enum_fields_closed Subscription
    (mkField "pricing_plan" (TEnumOf PricingPlan) []) "PricingPlan"
    (values PricingPlan) 0%Z ltac:(in_list) ltac:(in_list) eq_refl)
    as (_ & _ & Hin & Hout & Hnone).
  split; [apply Hin; in_list | split; [ | exact Hnone]].
  apply Hout; [discriminate | ].
  intros s Hs. vm_compute in Hs.
  repeat (apply elem_of_cons in Hs as [-> | Hs]); [discriminate | discriminate | inversion Hs].
Defined.

(** C2, as stated, fails on [User.account_type], which is
    [Optional[AccountType]]: [None] is no member of [AccountType], yet
    the field accepts it and so does the whole input. *)
Lemma optional_enum_accepts_None :
  User ∈ all_models /\
  mkField "account_type" (TOptional (TEnumOf AccountType)) [default RNone] ∈ fields User /\
  enum_of (TOptional (TEnumOf AccountType)) = Some ("AccountType", ["master"; "member"]) /\
  (forall s, s ∈ ["master"; "member"] -> RNone <> RStr s) /\
  validate_field 0 (mkField "account_type" (TOptional (TEnumOf AccountType)) [default RNone])
    (Some RNone) = inr RNone /\
  exists inst, model_validate User 0 (sample_user RNone) = inr inst /\
               inst !! "account_type" = Some RNone.
Proof.
  split; [in_list | ]. split; [in_list | ]. split; [reflexivity | ].
  split; [discriminate | ]. split; [reflexivity | ].
  exists (validate_fields 0 (fields User) (sample_user RNone)).2.
  split; [apply model_validate_ok | ]; vm_compute; reflexivity.
Qed.

(** ** Optional fields and defaults *)

(** A field whose default is [None] takes a supplied value that passes
    its check, and [None] when nothing is supplied. *)
Lemma validate_field_supplied_or_None now f c :
  get_default now f = Some RNone ->
  (forall v, c = Some v -> check_value (kwargs f) (annotation f) v = None) ->
  validate_field now f c = inr (supplied_or_None c).
Proof.
  intros Hd Hc. unfold validate_field. destruct c as [v | ]; simpl.
  - by rewrite Hc.
  - by rewrite Hd.
Qed.

Lemma check_optional_str_within n (v : raw) :
  str_within n v ->
  check_value [default RNone; max_length n] (TOptional TStr) v = None.
Proof.
  intros [-> | (s & -> & Hs)]; [done | ]. simpl. unfold check_str.
  change (too_short _ s) with false.
  change (too_long _ s) with (n <? str_len s)%nat.
  apply Nat.ltb_ge in Hs. by rewrite Hs.
Qed.

(** C7: every field of [UserContextUpdate] is [Optional] with default
    [None].  Whatever subset of the six fields an input supplies, with
    strings within the length bounds, a declared language and a
    dictionary, the input is accepted; a supplied field keeps its value
    and every omitted field is [None]. *)
Theorem UserContextUpdate_all_optional now (data : gmap string raw) :
  (forall v, data !! "user_type_context" = Some v -> str_within 50 v) ->
  (forall v, data !! "home_location" = Some v -> str_within 100 v) ->
  (forall v, data !! "preferred_language" = Some v -> language_or_None v) ->
  (forall v, data !! "profession" = Some v -> str_within 100 v) ->
  (forall v, data !! "personal_notes" = Some v -> str_within 2000 v) ->
  (forall v, data !! "context_data" = Some v -> dict_or_None v) ->
  fname <$> fields UserContextUpdate =
    ["user_type_context"; "home_location"; "preferred_language"; "profession";
     "personal_notes"; "context_data"] /\
  (forall f, f ∈ fields UserContextUpdate ->
     is_optional (annotation f) = true /\ is_required f = false /\
     get_default now f = Some RNone) /\
  exists inst,
    model_validate UserContextUpdate now data = inr inst /\
    (forall f, f ∈ fields UserContextUpdate ->
       inst !! fname f = Some (supplied_or_None (data !! fname f))) /\
    (forall f, f ∈ fields UserContextUpdate -> data !! fname f = None ->
       inst !! fname f = Some RNone).
Proof.
  intros H1 H2 H3 H4 H5 H6.
  assert (Hfields : forall f, f ∈ fields UserContextUpdate ->
            validate_field now f (data !! fname f) = inr (supplied_or_None (data !! fname f))).
  { intros f Hf. simpl in Hf.
    repeat (apply elem_of_cons in Hf as [-> | Hf]); [ | | | | | | inversion Hf];
      apply validate_field_supplied_or_None; try reflexivity; simpl; intros v Hv.
    - by apply check_optional_str_within, H1.
    - by apply check_optional_str_within, H2.
    - destruct (H3 v Hv) as [-> | [l ->]]; [done | by destruct l].
    - by apply check_optional_str_within, H4.
    - by apply check_optional_str_within, H5.
    - by destruct (H6 v Hv) as [-> | [d ->]]. }
  split; [reflexivity | ]. split.
  { intros f Hf. simpl in Hf.
    repeat (apply elem_of_cons in Hf as [-> | Hf]); [ | | | | | | inversion Hf]; done. }
  destruct (model_validate_accepts UserContextUpdate now data) as [inst Hinst].
  { intros f Hf. eexists. by apply Hfields. }
  assert (Hlook : forall f, f ∈ fields UserContextUpdate ->
            inst !! fname f = Some (supplied_or_None (data !! fname f))).
  { intros f Hf. apply (model_validate_lookup UserContextUpdate now data); try done.
    - apply declared_names_NoDup. in_list.
    - by apply Hfields. }
  exists inst. repeat split; try done.
  intros f Hf Hnone. rewrite (Hlook f Hf), Hnone. done.
Qed.

Lemma UserContextUpdate_all_optional_witness :
  exists inst,
    model_validate UserContextUpdate 0 sample_update = inr inst /\
    inst !! "home_location" = Some (RStr "Sofia") /\
    inst !! "profession" = Some RNone.
Proof.
  destruct (UserContextUpdate_all_optional 0%Z sample_update)
    as (_ & _ & inst & Hinst & Hkeep & Hnone).
  - intros v [=].
  - intros v [= <-]. right. exists "Sofia". split; [done | simpl; lia].
  - intros v [= <-]. right. by exists BG.
  - intros v [=].
  - intros v [=].
  - intros v [=].
  - exists inst. split; [exact Hinst | split].
    + apply (Hkeep (mkField "home_location" (TOptional TStr) [default RNone; max_length 100])).
      in_list.
    + apply (Hnone (mkField "profession" (TOptional TStr) [default RNone; max_length 100]));
        [in_list | reflexivity].
Defined.

(** C10: a [Subscription] built without its token counters starts them
    at zero: [tokens_used] and [total_tokens_consumed] default to 0, and
    [token_allowance], [week_pass_expires_at], [week_pass_price] and
    [current_price_per_1k_tokens] to [None].  This holds of the instance
    the constructor builds and of the one [model_validate] returns, which
    it does for an input of nothing but a user and a plan. *)
Theorem Subscription_defaults now (data : gmap string raw) k d :
  (k, d) ∈ subscription_defaults -> data !! k = None ->
  sqlmodel_table_construct now (fields Subscription) data !! k = Some d /\
  (forall inst, model_validate Subscription now data = inr inst -> inst !! k = Some d) /\
  (forall uid p, exists inst,
     model_validate Subscription now (minimal_subscription uid p) = inr inst /\
     forall k' d', (k', d') ∈ subscription_defaults -> inst !! k' = Some d').
Proof.
  assert (Hnd : NoDup (fname <$> fields Subscription))
    by (apply declared_names_NoDup; in_list).
  assert (Hfield : forall k d, (k, d) ∈ subscription_defaults ->
            exists f, f ∈ fields Subscription /\ fname f = k /\ get_default now f = Some d).
  { clear. intros k d Hk. unfold subscription_defaults in Hk.
    repeat (apply elem_of_cons in Hk as [[= -> ->] | Hk]); [ | | | | | | inversion Hk].
    - exists (mkField "tokens_used" TInt [default (RInt 0)]).
      split; [in_list | done].
    - exists (mkField "total_tokens_consumed" TInt [default (RInt 0)]).
      split; [in_list | done].
    - exists (mkField "token_allowance" (TOptional TInt) [default RNone]).
      split; [in_list | done].
    - exists (mkField "week_pass_expires_at" (TOptional TDatetime) [default RNone]).
      split; [in_list | done].
    - exists (mkField "week_pass_price" (TOptional TDecimal)
                [default RNone; decimal_places 2; max_digits 10]).
      split; [in_list | done].
    - exists (mkField "current_price_per_1k_tokens" (TOptional TDecimal)
                [default RNone; decimal_places 4; max_digits 10]).
      split; [in_list | done]. }
  intros Hk Hnone. destruct (Hfield k d Hk) as (f & Hf & <- & Hd).
  split; [ | split].
  - rewrite sqlmodel_table_construct_lookup by done. by rewrite Hnone.
  - intros inst Hinst. apply (model_validate_lookup Subscription now data); try done.
    rewrite Hnone. unfold validate_field. by rewrite Hd.
  - intros uid p.
    exists (validate_fields now (fields Subscription) (minimal_subscription uid p)).2.
    split.
    + apply model_validate_ok. destruct p; vm_compute; reflexivity.
    + intros k' d' Hk'.
      assert (Habsent : minimal_subscription uid p !! k' = None).
      { unfold subscription_defaults in Hk'.
        repeat (apply elem_of_cons in Hk' as [[= -> ->] | Hk']); [ | | | | | | inversion Hk'];
          destruct p; vm_compute; reflexivity. }
      destruct (Hfield k' d' Hk') as (f' & Hf' & <- & Hd').
      apply validate_fields_lookup; try done.
      rewrite Habsent. unfold validate_field. by rewrite Hd'.
Qed.

Lemma Subscription_defaults_witness :
  sqlmodel_table_construct 0 (fields Subscription) (minimal_subscription 7 WEEK_PASS)
    !! "tokens_used" = Some (RInt 0) /\
  sqlmodel_table_construct 0 (fields Subscription) (minimal_subscription 7 WEEK_PASS)
    !! "token_allowance" = Some RNone.
Proof.
  split.
  - refine (proj1 (Subscription_defaults 0%Z (minimal_subscription 7 WEEK_PASS)
                      "tokens_used" (RInt 0) _ _));
      [in_list | vm_compute; reflexivity].
  - refine (proj1 (Subscription_defaults 0%Z (minimal_subscription 7 WEEK_PASS)
                      "token_allowance" RNone _ _));
      [in_list | vm_compute; reflexivity].
Defined.

(** ** What the schema lets through *)

(** C1: the week-pass fields and the bestprice fields of
    [Subscription] exclude each other only in intent.  Under either
    pricing plan, the input [both_groups] that sets every field of both
    groups is accepted by [model_validate], all of them kept, and the
    table takes the row. *)
Theorem Subscription_both_groups_accepted (p : PricingPlan) (now : Z) :
  exists inst,
    model_validate Subscription now (both_groups p) = inr inst /\
    inst !! "pricing_plan" = Some (RStr (value p)) /\
    inst !! "token_allowance" = Some (RInt 100000) /\
    inst !! "week_pass_expires_at" = Some (RDatetime 1767225600000000) /\
    inst !! "week_pass_price" = Some (RDecimal price_9_99) /\
    inst !! "current_price_per_1k_tokens" = Some (RDecimal price_0_0150) /\
    exists t, db_insert Subscription empty_table inst = inr t.
Proof.
  exists (validate_fields now (fields Subscription) (both_groups p)).2.
  split; [apply model_validate_ok; destruct p; vm_compute; reflexivity | ].
  repeat (split; [destruct p; vm_compute; reflexivity | ]).
  destruct (db_insert _ _ _) as [e | t] eqn:Hins; [exfalso | eauto].
  destruct p; vm_compute in Hins; discriminate.
Qed.

(** C3: nothing in the schema bounds [tokens_used] by
    [token_allowance]: a week pass with an allowance of [n] tokens and
    [m > n] tokens used is accepted by [model_validate], with both
    numbers kept. *)
Theorem tokens_used_may_exceed_allowance (n m now : Z) :
  (n < m)%Z ->
  exists inst,
    model_validate Subscription now (week_pass n m) = inr inst /\
    inst !! "pricing_plan" = Some (RStr "week_pass") /\
    inst !! "token_allowance" = Some (RInt n) /\
    inst !! "tokens_used" = Some (RInt m).
Proof.
  intros _.
  exists (validate_fields now (fields Subscription) (week_pass n m)).2.
  split; [apply model_validate_ok; vm_compute; reflexivity | ].
  repeat split; vm_compute; reflexivity.
Qed.

Lemma tokens_used_may_exceed_allowance_witness :
  exists inst,
    model_validate Subscription 0 (week_pass 1000 1001) = inr inst /\
    inst !! "pricing_plan" = Some (RStr "week_pass") /\
    inst !! "token_allowance" = Some (RInt 1000) /\
    inst !! "tokens_used" = Some (RInt 1001).
Proof. apply (tokens_used_may_exceed_allowance 1000 1001 0). lia. Defined.

(** ** Keys of the tables *)

(** C5: a [UserContext] cannot be without its [user_id], and
    [user_id] is unique.  After any history of statements on the table,
    every row has a [user_id], two rows never share one, and at most one
    row belongs to a given user; [User.user_context] is declared as a
    single object ([uselist=False]). *)
Theorem UserContext_user_id_one_to_one (history : list stmt) :
  mkField "user_id" TInt [foreign_key "users.id"; unique] ∈ fields UserContext /\
  is_required (mkField "user_id" TInt [foreign_key "users.id"; unique]) = true /\
  is_unique (mkField "user_id" TInt [foreign_key "users.id"; unique]) = true /\
  (forall now (data : gmap string raw), data !! "user_id" = None ->
     exists errs, model_validate UserContext now data = inl errs /\
                  ("user_id", missing) ∈ errs) /\
  (forall r, r ∈ rows (run UserContext history) -> is_null (r !! "user_id") = false) /\
  (forall i j r1 r2, i <> j ->
     rows (run UserContext history) !! i = Some r1 ->
     rows (run UserContext history) !! j = Some r2 ->
     r1 !! "user_id" <> r2 !! "user_id") /\
  (forall uid : Z,
     length (rows_with "user_id" (RInt uid) (run UserContext history)) <= 1) /\
  mkRel "user_context" "UserContext" false (Some "user") true ∈ relationships User.
Proof.
  set (f := mkField "user_id" TInt [foreign_key "users.id"; unique]).
  assert (Hf : f ∈ fields UserContext) by in_list.
  assert (Hkey : ["user_id"] ∈ key_cols UserContext) by in_list.
  assert (Hnn : forall r, r ∈ rows (run UserContext history) ->
            is_null (r !! "user_id") = false).
  { intros r Hr. by apply (run_not_null UserContext history r f). }
  split; [exact Hf | split; [reflexivity | split; [reflexivity | ]]].
  split; [ | split; [exact Hnn | split; [ | split; [ | in_list]]]].
  - intros now data Hnone. apply (model_validate_rejects UserContext now data f missing Hf).
    simpl. by rewrite Hnone.
  - intros i j r1 r2 Hij H1 H2.
    apply agree_single_false.
    + by apply (run_distinct UserContext history ["user_id"] Hkey i j).
    + apply Hnn. by apply (list_elem_of_lookup_2 _ i).
  - intros uid. apply (distinct_on_count ["user_id"]); [ | by apply run_distinct].
    intros r r' Hr Hr'. unfold agree. simpl. rewrite andb_true_r.
    by apply (agree_on_value "user_id" (RInt uid)).
Qed.

Lemma UserContext_user_id_one_to_one_witness :
  length (rows (run UserContext contexts_history)) = 2 /\
  length (rows_with "user_id" (RInt 1) (run UserContext contexts_history)) <= 1.
Proof.
  split; [vm_compute; reflexivity | ].
  apply (UserContext_user_id_one_to_one contexts_history).
Defined.

(** C6: the primary key of [ChatSessionDocument] is the pair
    (chat_session_id, document_id).  After any history of statements on
    the table, every row sets both, two rows never share the pair, and at
    most one row links a given session to a given document. *)
Theorem ChatSessionDocument_composite_key (history : list stmt) :
  fname <$> pk_fields ChatSessionDocument = ["chat_session_id"; "document_id"] /\
  (forall r, r ∈ rows (run ChatSessionDocument history) ->
     is_null (r !! "chat_session_id") = false /\ is_null (r !! "document_id") = false) /\
  (forall i j r1 r2, i <> j ->
     rows (run ChatSessionDocument history) !! i = Some r1 ->
     rows (run ChatSessionDocument history) !! j = Some r2 ->
     (r1 !! "chat_session_id", r1 !! "document_id") <>
     (r2 !! "chat_session_id", r2 !! "document_id")) /\
  (forall session document : Z,
     length (rows_with2 "chat_session_id" (RInt session) "document_id" (RInt document)
               (run ChatSessionDocument history)) <= 1).
Proof.
  set (fs := mkField "chat_session_id" TInt [foreign_key "chat_sessions.id"; primary_key]).
  set (fd := mkField "document_id" TInt [foreign_key "documents.id"; primary_key]).
  assert (Hkey : ["chat_session_id"; "document_id"] ∈ key_cols ChatSessionDocument)
    by in_list.
  assert (Hnn : forall r, r ∈ rows (run ChatSessionDocument history) ->
            is_null (r !! "chat_session_id") = false /\ is_null (r !! "document_id") = false).
  { intros r Hr. split.
    - apply (run_not_null ChatSessionDocument history r fs); [done | in_list | done].
    - apply (run_not_null ChatSessionDocument history r fd); [done | in_list | done]. }
  split; [reflexivity | split; [exact Hnn | split]].
  - intros i j r1 r2 Hij H1 H2.
    destruct (Hnn r1) as [Hs Hd]; [by apply (list_elem_of_lookup_2 _ i) | ].
    apply agree_pair_false; try done.
    by apply (run_distinct ChatSessionDocument history _ Hkey i j).
  - intros session document.
    apply (distinct_on_count ["chat_session_id"; "document_id"]);
      [ | by apply run_distinct].
    intros r r' [Hs Hd]%andb_true_iff [Hs' Hd']%andb_true_iff.
    unfold agree. simpl. rewrite andb_true_r. apply andb_true_iff. split.
    + by apply (agree_on_value "chat_session_id" (RInt session)).
    + by apply (agree_on_value "document_id" (RInt document)).
Qed.

Lemma ChatSessionDocument_composite_key_witness :
  length (rows (run ChatSessionDocument links_history)) = 3 /\
  length (rows_with2 "chat_session_id" (RInt 1) "document_id" (RInt 2)
            (run ChatSessionDocument links_history)) <= 1.
Proof.
  split; [vm_compute; reflexivity | ].
  apply (ChatSessionDocument_composite_key links_history).
Defined.

(** C8: [User.email] is declared [unique=True].  After any history of
    statements on the users table, every row has an email, two rows
    never share one, and at most one row holds a given address. *)
Theorem User_email_unique (history : list stmt) :
  mkField "email" TStr [unique; max_length 255] ∈ fields User /\
  is_unique (mkField "email" TStr [unique; max_length 255]) = true /\
  (forall r, r ∈ rows (run User history) -> is_null (r !! "email") = false) /\
  (forall i j r1 r2, i <> j ->
     rows (run User history) !! i = Some r1 ->
     rows (run User history) !! j = Some r2 ->
     r1 !! "email" <> r2 !! "email") /\
  (forall email : string,
     length (rows_with "email" (RStr email) (run User history)) <= 1).
Proof.
  set (f := mkField "email" TStr [unique; max_length 255]).
  assert (Hf : f ∈ fields User) by in_list.
  assert (Hkey : ["email"] ∈ key_cols User) by in_list.
  assert (Hnn : forall r, r ∈ rows (run User history) -> is_null (r !! "email") = false).
  { intros r Hr. by apply (run_not_null User history r f). }
  split; [exact Hf | split; [reflexivity | split; [exact Hnn | split]]].
  - intros i j r1 r2 Hij H1 H2.
    apply agree_single_false.
    + by apply (run_distinct User history ["email"] Hkey i j).
    + apply Hnn. by apply (list_elem_of_lookup_2 _ i).
  - intros email. apply (distinct_on_count ["email"]); [ | by apply run_distinct].
    intros r r' Hr Hr'. unfold agree. simpl. rewrite andb_true_r.
    by apply (agree_on_value "email" (RStr email)).
Qed.

Lemma User_email_unique_witness :
  length (rows (run User users_history)) = 2 /\
  exec User (run User users_history) (INSERT (user_of "ben@example.eu"))
    = inl (UniqueViolation ["email"]) /\
  length (rows_with "email" (RStr "ana@example.eu") (run User users_history)) <= 1.
Proof.
  split; [vm_compute; reflexivity | split; [vm_compute; reflexivity | ]].
  apply (User_email_unique users_history).
Defined.

(** * Further properties of the module *)

(** ** What an accepted instance holds *)

Lemma validate_fields_keys now fs (data : gmap string raw) k :
  (validate_fields now fs data).1 = [] ->
  is_Some ((validate_fields now fs data).2 !! k) <-> k ∈ fname <$> fs.
Proof.
  induction fs as [ | f fs IH]; simpl.
  - intros _. rewrite lookup_empty, elem_of_nil. split; [by intros [? [=]] | done].
  - destruct (validate_fields now fs data) as [errs inst]. simpl in IH.
    destruct (validate_field now f (data !! fname f)) as [e | v]; simpl; [discriminate | ].
    intros Herrs. rewrite elem_of_cons, <- (IH Herrs).
    destruct (decide (fname f = k)) as [<- | Hne].
    + rewrite lookup_insert_eq. split; [auto | eauto].
    + rewrite lookup_insert_ne by done. split; [auto | ]. by intros [-> | ].
Qed.

(** ** Missing fields *)

Lemma get_default_required now f :
  get_default now f = None <-> is_required f = true.
Proof.
  unfold is_required, get_default, first_kw.
  induction (kwargs f) as [ | k kws IH]; simpl; [done | ].
  destruct k; simpl; try done.
Qed.

(** The check of a supplied value never answers [missing]. *)
Lemma check_value_not_missing kws t v : check_value kws t v <> Some missing.
Proof.
  revert kws v. induction t as [ | | | | | n vals | t IH | | t IH]; intros kws v; simpl.
  - by destruct v.
  - destruct v; try done. unfold check_str.
    destruct (too_short kws s); [done | by destruct (too_long kws s)].
  - by destruct v.
  - by destruct v.
  - destruct v; try done. unfold check_decimal.
    destruct (decimal_counts (normalize d)) as [digits decimals].
    destruct (get_max_digits kws), (get_decimal_places kws);
      repeat (match goal with |- context [if ?b then _ else _] => destruct b end); done.
  - destruct v; try done. by case_bool_decide.
  - destruct v; try done. unfold first_error.
    induction l as [ | x l IHl]; simpl; [done | ].
    destruct (check_value [] t x) as [e | ] eqn:Hx; simpl; [ | done].
    intros [= ->]. by apply (IH [] x).
  - by destruct v.
  - destruct v; try done; apply IH.
Qed.

Lemma validate_field_missing now f c :
  validate_field now f c = inl missing <-> is_required f = true /\ c = None.
Proof.
  unfold validate_field. destruct c as [v | ].
  - destruct (check_value (kwargs f) (annotation f) v) as [e | ] eqn:Hc.
    + split; [intros [= ->]; by apply check_value_not_missing in Hc | by intros [_ [=]]].
    + split; [done | by intros [_ [=]]].
  - destruct (get_default now f) eqn:Hd.
    + split; [done | ]. intros [Hr _]. apply (get_default_required now) in Hr. congruence.
    + split; [ | done]. intros _. split; [ | done]. by apply (get_default_required now).
Qed.

Lemma validate_fields_empty now fs :
  validate_fields now fs ∅ =
    ((fun n => (n, missing)) <$> (fname <$> List.filter is_required fs),
     sqlmodel_table_construct now fs ∅).
Proof.
  induction fs as [ | f fs IH]; simpl; [done | ].
  rewrite IH, lookup_empty. unfold validate_field.
  destruct (get_default now f) eqn:Hd.
  - replace (is_required f) with false; [done | ].
    destruct (is_required f) eqn:Hr; [ | done].
    apply (get_default_required now) in Hr. congruence.
  - apply get_default_required in Hd. by rewrite Hd.
Qed.

(** X4: An error [missing] is reported for exactly the required fields the
    input leaves out.  On the empty input the errors are the required
    fields in declaration order, and a class without required fields
    accepts it with every default; of the classes of the module only
    [UserContextUpdate] does. *)
Theorem missing_fields m now :
  (forall (data : gmap string raw) errs n,
     model_validate m now data = inl errs ->
     ((n, missing) ∈ errs <->
      exists f, f ∈ fields m /\ fname f = n /\ is_required f = true /\ data !! n = None)) /\
  model_validate m now ∅ =
    match required_names m with
    | [] => inr (sqlmodel_table_construct now (fields m) ∅)
    | names => inl ((fun n => (n, missing)) <$> names)
    end /\
  cls <$> List.filter (fun m' => bool_decide (required_names m' = [])) all_models
    = ["UserContextUpdate"].
Proof.
  split; [ | split; [ | reflexivity]].
  - intros data errs n ->%model_validate_inl.
    rewrite validate_fields_errors. split.
    + intros (f & Hf & <- & [Hr Hc]%validate_field_missing). eauto 6.
    + intros (f & Hf & <- & Hr & Hc). exists f. repeat split; try done.
      by apply validate_field_missing.
  - unfold model_validate, required_names. rewrite validate_fields_empty.
    by destruct (fname <$> List.filter is_required (fields m)).
Qed.

Lemma missing_fields_witness :
  ("password", missing) ∈ [("password", missing); ("user_type", missing)] <->
  exists f, f ∈ fields UserCreate /\ fname f = "password" /\ is_required f = true /\
            ({[ "email" := RStr "ana@example.eu" ]} : gmap string raw) !! "password" = None.
Proof.
  apply (proj1 (missing_fields UserCreate 0%Z)
           ({[ "email" := RStr "ana@example.eu" ]} : gmap string raw)).
  vm_compute. reflexivity.
Defined.

(** ** Validated instances *)

Lemma check_value_datetime kws t a b :
  check_value kws t (RDatetime a) = check_value kws t (RDatetime b).
Proof. induction t; simpl; try done. Qed.

Lemma get_default_now now f d :
  get_default now f = Some d ->
  get_default 0 f = Some d \/ (d = RDatetime now /\ get_default 0 f = Some (RDatetime 0)).
Proof.
  unfold get_default, first_kw.
  induction (kwargs f) as [ | k kws IH]; simpl; [done | ].
  destruct k; simpl; try done.
  - intros [= ->]. by left.
  - intros [= <-]. by right.
Qed.

Lemma default_passes_check now f d :
  default_passes f = true -> get_default now f = Some d ->
  check_value (kwargs f) (annotation f) d = None.
Proof.
  unfold default_passes. intros Hp [Hd | [-> Hd]]%get_default_now; rewrite Hd in Hp.
  - by destruct (check_value (kwargs f) (annotation f) d).
  - rewrite (check_value_datetime _ _ now 0).
    by destruct (check_value (kwargs f) (annotation f) (RDatetime 0)).
Qed.

Lemma declared_defaults_pass m f :
  m ∈ all_models -> f ∈ fields m -> default_passes f = true.
Proof.
  intros Hm Hf.
  assert (Hall : forallb (fun m => forallb default_passes (fields m)) all_models = true)
    by (vm_compute; reflexivity).
  rewrite forallb_forall in Hall. apply list_elem_of_In, Hall in Hm.
  rewrite forallb_forall in Hm. by apply list_elem_of_In, Hm in Hf.
Qed.

(** In an accepted input every field passed. *)
Lemma accepted_fields_pass m now (data : gmap string raw) inst f :
  model_validate m now data = inr inst -> f ∈ fields m ->
  exists v, validate_field now f (data !! fname f) = inr v.
Proof.
  intros [Herrs _]%model_validate_inr Hf.
  destruct (validate_field now f (data !! fname f)) as [e | v] eqn:Hv; [ | eauto].
  assert (Hin : (fname f, e) ∈ (validate_fields now (fields m) data).1).
  { apply validate_fields_errors. eauto. }
  rewrite Herrs in Hin. inversion Hin.
Qed.

(** Every attribute of an accepted instance of a class of the module
    passes the check of its field, the defaults included. *)
Lemma instance_values_checked m now (data : gmap string raw) inst f :
  m ∈ all_models -> model_validate m now data = inr inst -> f ∈ fields m ->
  exists v, inst !! fname f = Some v /\ check_value (kwargs f) (annotation f) v = None.
Proof.
  intros Hm Hinst Hf.
  destruct (accepted_fields_pass m now data inst f Hinst Hf) as [v Hv].
  exists v. split.
  - apply (model_validate_lookup m now data inst f v); try done.
    by apply declared_names_NoDup.
  - unfold validate_field in Hv. destruct (data !! fname f) as [v0 | ].
    + destruct (check_value (kwargs f) (annotation f) v0) eqn:Hc; [discriminate | ].
      by injection Hv as <-.
    + destruct (get_default now f) as [d | ] eqn:Hd; [ | discriminate].
      injection Hv as <-. apply (default_passes_check now); [ | done].
      by apply (declared_defaults_pass m).
Qed.

(** X6: An instance that validation returned validates to itself, at any
    later time: every default of the module satisfies the constraints of
    its own field ([currency] defaults to the three letters its
    [max_length] allows). *)
Theorem revalidation m now now' (data : gmap string raw) inst :
  m ∈ all_models -> model_validate m now data = inr inst ->
  model_validate m now' inst = inr inst.
Proof.
  intros Hm Hinst.
  assert (Hnd : NoDup (fname <$> fields m)) by by apply declared_names_NoDup.
  assert (Hpass : forall f, f ∈ fields m ->
            exists v, inst !! fname f = Some v /\
                      validate_field now' f (inst !! fname f) = inr v).
  { intros f Hf.
    destruct (instance_values_checked m now data inst f Hm Hinst Hf) as (v & Hv & Hc).
    exists v. split; [done | ]. rewrite Hv. unfold validate_field. by rewrite Hc. }
  destruct (model_validate_accepts m now' inst) as [inst' Hinst'].
  { intros f Hf. destruct (Hpass f Hf) as (v & _ & Hv). eauto. }
  rewrite Hinst'. f_equal. apply map_eq. intros k.
  destruct (decide (k ∈ fname <$> fields m)) as [Hk | Hk].
  - apply list_elem_of_fmap in Hk as (f & -> & Hf).
    destruct (Hpass f Hf) as (v & Hv & Hv').
    rewrite Hv. by apply (model_validate_lookup m now' inst inst' f v).
  - apply model_validate_inr in Hinst as [Herrs ->].
    apply model_validate_inr in Hinst' as [Herrs' ->].
    pose proof (validate_fields_keys now (fields m) data k Herrs) as H1.
    pose proof (validate_fields_keys now' (fields m) _ k Herrs') as H2.
    destruct (_ !! k) eqn:E1 in H1.
    { exfalso. apply Hk, H1. eauto. }
    destruct ((validate_fields now' _ _).2 !! k) eqn:E2.
    { exfalso. apply Hk, H2. eauto. }
    by rewrite E1.
Qed.

Lemma revalidation_witness :
  model_validate UserCreate 9 (validate_fields 0 (fields UserCreate) (signup "12345678")).2
    = inr (validate_fields 0 (fields UserCreate) (signup "12345678")).2.
Proof.
  apply (revalidation UserCreate 0%Z 9%Z (signup "12345678")); [in_list | ].
  apply model_validate_ok. vm_compute. reflexivity.
Defined.

(** ** From validation to the table *)

(** Only an [Optional] annotation lets [None] through. *)
Lemma check_value_None_optional kws t :
  check_value kws t RNone = None -> is_optional t = true.
Proof. by destruct t. Qed.

Lemma declared_optional_pk_numbered m :
  m ∈ all_models -> optional_pk_numbered m = true.
Proof.
  intros Hm.
  assert (Hall : forallb optional_pk_numbered all_models = true) by (vm_compute; reflexivity).
  rewrite forallb_forall in Hall. by apply list_elem_of_In, Hall in Hm.
Qed.

Lemma field_of_name (l : list FieldDecl) g f :
  NoDup (fname <$> l) -> g ∈ l -> f ∈ l -> fname g = fname f -> g = f.
Proof.
  intros Hnd Hg Hf Hname. induction l as [ | h l IH]; [inversion Hg | ].
  simpl in Hnd. apply NoDup_cons in Hnd as [Hh Hnd].
  apply elem_of_cons in Hg as [-> | Hg]; apply elem_of_cons in Hf as [-> | Hf]; auto.
  - exfalso. apply Hh. rewrite Hname. by apply list_elem_of_fmap_2.
  - exfalso. apply Hh. rewrite <- Hname. by apply list_elem_of_fmap_2.
Qed.

(** X7: What a class of the module validated has a value in every
    column that may not be NULL: a field that is no [Optional] never
    holds [None], by its check when supplied and by its default when
    not.  The one exception is an [id] left unset, which is the single
    primary key of its class, the column the table numbers. *)
Theorem validated_instance_columns_set m now (data : gmap string raw) inst f :
  m ∈ all_models -> model_validate m now data = inr inst ->
  f ∈ fields m -> nullable f = false ->
  is_null (inst !! fname f) = false \/
  (pk_fields m = [f] /\ annotation f = TOptional TInt /\ inst !! fname f = Some RNone).
Proof.
  intros Hm Hinst Hf Hnull.
  destruct (instance_values_checked m now data inst f Hm Hinst Hf) as (v & Hv & Hc).
  rewrite Hv.
  assert (Hcases : v = RNone \/ is_null (Some v) = false) by (destruct v; auto).
  destruct Hcases as [-> | Hset]; [right | by left].
  apply check_value_None_optional in Hc.
  assert (Hnum := declared_optional_pk_numbered m Hm).
  unfold optional_pk_numbered in Hnum. rewrite forallb_forall in Hnum.
  pose proof Hf as Hf'. apply list_elem_of_In, Hnum in Hf'.
  unfold nullable in Hnull. apply orb_false_iff in Hnull as [_ Hnull].
  rewrite Hc in Hnull, Hf'. rewrite andb_true_r in Hnull. apply negb_false_iff in Hnull.
  rewrite Hnull in Hf'. simpl in Hf'.
  destruct (pk_fields m) as [ | g [ | ? ?]] eqn:Hpk; try done.
  apply bool_decide_eq_true in Hf'.
  assert (Hg : g ∈ fields m).
  { apply list_elem_of_In. apply (proj1 (filter_In is_primary_key g (fields m))).
    fold (pk_fields m). rewrite Hpk. by left. }
  assert (g = f) as ->.
  { apply (field_of_name (fields m)); try done. by apply declared_names_NoDup. }
  split; [done | split; [ | done]].
  assert (Hall : forallb (fun m => forallb (fun f =>
            negb (is_primary_key f && is_optional (annotation f)) ||
            bool_decide (annotation f = TOptional TInt)) (fields m)) all_models = true)
    by (vm_compute; reflexivity).
  rewrite forallb_forall in Hall. apply list_elem_of_In, Hall in Hm.
  rewrite forallb_forall in Hm. apply list_elem_of_In, Hm in Hf.
  rewrite Hnull, Hc in Hf. simpl in Hf. by apply bool_decide_eq_true in Hf.
Qed.

Lemma validated_instance_columns_set_witness :
  is_null ((validate_fields 0 (fields BillingRecord)
              ({[ "user_id" := RInt 1; "subscription_id" := RInt 2;
                  "billing_period_start" := RDatetime 0;
                  "billing_period_end" := RDatetime 1; "total_tokens" := RInt 10;
                  "total_cost" := RDecimal price_9_99 ]} : gmap string raw)).2
           !! "currency") = false \/
  (pk_fields BillingRecord = [mkField "currency" TStr [default (RStr "EUR"); max_length 3]] /\
   TStr = TOptional TInt /\
   (validate_fields 0 (fields BillingRecord)
      ({[ "user_id" := RInt 1; "subscription_id" := RInt 2;
          "billing_period_start" := RDatetime 0;
          "billing_period_end" := RDatetime 1; "total_tokens" := RInt 10;
          "total_cost" := RDecimal price_9_99 ]} : gmap string raw)).2
     !! "currency" = Some RNone).
Proof.
  apply (validated_instance_columns_set BillingRecord 0%Z
           ({[ "user_id" := RInt 1; "subscription_id" := RInt 2;
               "billing_period_start" := RDatetime 0;
               "billing_period_end" := RDatetime 1; "total_tokens" := RInt 10;
               "total_cost" := RDecimal price_9_99 ]} : gmap string raw) _
           (mkField "currency" TStr [default (RStr "EUR"); max_length 3]));
    [in_list | apply model_validate_ok; vm_compute; reflexivity | in_list | reflexivity].
Defined.

(** ** Request shapes and their tables *)

Lemma check_value_congr kws kws' t v :
  get_min_length kws = get_min_length kws' ->
  get_max_length kws = get_max_length kws' ->
  get_max_digits kws = get_max_digits kws' ->
  get_decimal_places kws = get_decimal_places kws' ->
  check_value kws t v = check_value kws' t v.
Proof.
  intros Hmin Hmax Hdig Hpl. revert v.
  induction t as [ | | | | | n vals | t IH | | t IH]; intros v; simpl; try done.
  - destruct v; try done. unfold check_str, too_short, too_long. by rewrite Hmin, Hmax.
  - destruct v; try done. unfold check_decimal. by rewrite Hdig, Hpl.
  - destruct v; try done; apply IH.
Qed.

Lemma find_field_Some m n g : find_field m n = Some g -> g ∈ fields m /\ fname g = n.
Proof.
  intros [Hin Hn]%find_some. split; [by apply list_elem_of_In | ].
  by apply bool_decide_eq_true in Hn.
Qed.

Lemma find_field_None m n : find_field m n = None -> n ∉ fname <$> fields m.
Proof.
  intros Hnone (g & -> & Hg)%list_elem_of_fmap.
  apply list_elem_of_In in Hg.
  pose proof (find_none _ _ Hnone g Hg) as Hb. simpl in Hb.
  by apply bool_decide_eq_false in Hb.
Qed.

Lemma mirror_validates S T now (data : gmap string raw) inst uid :
  S ∈ all_models -> NoDup (fname <$> fields T) -> mirrors S T = true ->
  model_validate S now data = inr inst ->
  exists row,
    model_validate T now (<["user_id" := RInt uid]> inst) = inr row /\
    forall k, k ∈ fname <$> fields S -> k ∈ fname <$> fields T -> row !! k = inst !! k.
Proof.
  intros HS HndT Hmir Hinst. unfold mirrors in Hmir.
  destruct (find_field S "user_id") eqn:Hu; [discriminate | ].
  rewrite forallb_forall in Hmir.
  assert (Hkeys : forall k, k ∉ fname <$> fields S -> inst !! k = None).
  { intros k Hk. pose proof Hinst as [Herrs ->]%model_validate_inr.
    pose proof (validate_fields_keys now (fields S) data k Herrs) as Hiff.
    destruct (_ !! k) eqn:E; [ | done]. exfalso. apply Hk, Hiff. eauto. }
  assert (Hfield : forall f, f ∈ fields T ->
            exists v, validate_field now f (<["user_id" := RInt uid]> inst !! fname f) = inr v /\
                      (fname f ∈ fname <$> fields S -> inst !! fname f = Some v)).
  { intros f Hf. apply list_elem_of_In, Hmir in Hf.
    destruct (find_field S (fname f)) as [g | ] eqn:Hg.
    - apply find_field_Some in Hg as [Hg Hname].
      assert (Hne : "user_id" <> fname f).
      { intros Heq. apply find_field_None in Hu. apply Hu. rewrite Heq, <- Hname.
        by apply list_elem_of_fmap_2. }
      destruct (instance_values_checked S now data inst g HS Hinst Hg) as (v & Hv & Hc).
      rewrite Hname in Hv. exists v. split; [ | done].
      rewrite lookup_insert_ne, Hv by done.
      unfold same_constraints in Hf.
      repeat (apply andb_true_iff in Hf as [Hf ?]).
      repeat match goal with H : bool_decide _ = true |- _ =>
               apply bool_decide_eq_true in H end.
      unfold validate_field.
      rewrite <- (check_value_congr (kwargs g) (kwargs f)) by done.
      by rewrite <- Hf, Hc.
    - apply find_field_None in Hg.
      case_bool_decide as Hid.
      + apply bool_decide_eq_true in Hf. rewrite Hid, lookup_insert_eq.
        exists (RInt uid). unfold validate_field. rewrite Hf. simpl.
        split; [done | ]. intros Hin. rewrite <- Hid in Hin. done.
      + rewrite lookup_insert_ne, (Hkeys _ Hg) by done.
        destruct (get_default now f) as [d | ] eqn:Hd.
        * exists d. unfold validate_field. rewrite Hd. split; [done | ]. by intros Hin.
        * apply get_default_required in Hd. rewrite Hd in Hf. discriminate. }
  destruct (model_validate_accepts T now (<["user_id" := RInt uid]> inst)) as [row Hrow].
  { intros f Hf. destruct (Hfield f Hf) as (v & Hv & _). eauto. }
  exists row. split; [done | ].
  intros k HkS (f & -> & Hf)%list_elem_of_fmap.
  destruct (Hfield f Hf) as (v & Hv & Hsame).
  rewrite (Hsame HkS).
  by apply (model_validate_lookup T now (<["user_id" := RInt uid]> inst) row f v).
Qed.

(** X8: The shapes [UserContextCreate], [OrganizationCreate],
    [QueryCreate] and [ChatSessionCreate] mirror their tables: whatever
    one of them validated, the table class validates too once [user_id]
    is added, and it keeps every value of the fields they share. *)
Theorem request_shapes_mirror_tables S T now (data : gmap string raw) inst uid :
  (S, T) ∈ mirrored_shapes -> model_validate S now data = inr inst ->
  exists row,
    model_validate T now (<["user_id" := RInt uid]> inst) = inr row /\
    forall k, k ∈ fname <$> fields S -> k ∈ fname <$> fields T -> row !! k = inst !! k.
Proof.
  intros Hpair. unfold mirrored_shapes in Hpair.
  repeat (apply elem_of_cons in Hpair as [[= -> ->] | Hpair]); [ | | | | inversion Hpair];
    apply mirror_validates;
    first [ by in_list | by (apply declared_names_NoDup; in_list)
          | vm_compute; reflexivity ].
Qed.

Lemma request_shapes_mirror_tables_witness :
  exists row,
    model_validate Query 0
      (<["user_id" := RInt 7]>
         (validate_fields 0 (fields QueryCreate) (question "What is the AI Act?")).2)
      = inr row /\
    forall k, k ∈ fname <$> fields QueryCreate -> k ∈ fname <$> fields Query ->
      row !! k = (validate_fields 0 (fields QueryCreate) (question "What is the AI Act?")).2 !! k.
Proof.
  apply (request_shapes_mirror_tables QueryCreate Query 0%Z (question "What is the AI Act?"));
    [in_list | ].
  apply model_validate_ok. vm_compute. reflexivity.
Defined.

(** ** Decimal fields *)













(** ** List fields *)

Lemma check_list_elements t l :
  first_error (check_value [] t <$> l) = None <->
  Forall (fun x => check_value [] t x = None) l.
Proof.
  unfold first_error. induction l as [ | x l IH]; simpl.
  - split; [constructor | done].
  - destruct (check_value [] t x) as [e | ] eqn:Hx; simpl.
    + split; [done | ]. intros H. apply Forall_cons_1 in H as [H _]. congruence.
    + rewrite IH. split; [intros H; by constructor | ]. by intros [_ H]%Forall_cons_1.
Qed.

Lemma check_element t x :
  match t with TInt | TStr | TDictStrAny => True | _ => False end ->
  check_value [] t x = None <-> element_of t x.
Proof.
  destruct t; try done; intros _; simpl.
  - destruct x; split; try done; try (by intros [? [=]]); eauto.
  - destruct x; split; try done; try (by intros [? [=]]); eauto.
  - destruct x; split; try done; try (by intros [? [=]]); eauto.
Qed.

(** X11: A list field of the module ([subsidiary_locations], [sources],
    [chunks], [document_ids]) accepts as it is a list whose elements are
    all of the declared kind, string, dictionary or integer, the empty
    list included.  For the lists of strings and of dictionaries these
    are the only lists it accepts; of [document_ids] and elements that
    are no integers nothing is said.  A value that is no list is a
    [list_type] error, and the field left out is the empty list. *)
Theorem list_fields_elementwise m f t now :
  m ∈ all_models -> f ∈ fields m -> annotation f = TList t ->
  (forall l, Forall (element_of t) l ->
             validate_field now f (Some (RList l)) = inr (RList l)) /\
  (t <> TInt -> forall l, validate_field now f (Some (RList l)) = inr (RList l) ->
             Forall (element_of t) l) /\
  (forall v, (forall l, v <> RList l) -> validate_field now f (Some v) = inl list_type) /\
  validate_field now f None = inr (RList []).
Proof.
  intros Hm Hf Hann.
  assert (Hdecl : list_field_declared f = true).
  { assert (Hall : forallb (fun m => forallb list_field_declared (fields m)) all_models
                   = true) by (vm_compute; reflexivity).
    rewrite forallb_forall in Hall. apply list_elem_of_In, Hall in Hm.
    rewrite forallb_forall in Hm. by apply list_elem_of_In, Hm in Hf. }
  unfold list_field_declared in Hdecl. rewrite Hann in Hdecl.
  apply andb_true_iff in Hdecl as [Ht Hd].
  assert (Hiff : forall l, validate_field now f (Some (RList l)) = inr (RList l) <->
                           Forall (element_of t) l).
  { intros l. unfold validate_field. rewrite Hann. simpl.
    assert (Helem : Forall (element_of t) l <->
                    Forall (fun x => check_value [] t x = None) l).
    { apply Forall_iff. intros x. symmetry. apply check_element. by destruct t. }
    rewrite Helem, <- check_list_elements.
    by destruct (first_error (check_value [] t <$> l)). }
  split; [ | split; [ | split]].
  - intros l Hl. by apply Hiff.
  - intros _ l Hl. by apply Hiff.
  - intros v Hv. unfold validate_field. rewrite Hann. simpl.
    destruct v; try done. by destruct (Hv l).
  - unfold validate_field.
    destruct (get_default 0 f) as [[ | | | | | | [ | ] | ] | ] eqn:Hd0; try done.
    destruct (get_default now f) as [d' | ] eqn:Hdn.
    + apply get_default_now in Hdn as [Hdn | [_ Hdn]]; congruence.
    + apply get_default_required in Hdn.
      unfold is_required in Hdn. by rewrite Hd0 in Hdn.
Qed.

Lemma list_fields_elementwise_witness :
  validate_field 0 (mkField "document_ids" (TList TInt) [default (RList [])])
    (Some (RList [RInt 3; RInt 5])) = inr (RList [RInt 3; RInt 5]) /\
  validate_field 0 (mkField "document_ids" (TList TInt) [default (RList [])])
    (Some (RStr "3,5")) = inl list_type.
Proof.
  pose proof (list_fields_elementwise ChatSessionCreate
    (mkField "document_ids" (TList TInt) [default (RList [])]) TInt 0%Z
    ltac:(in_list) ltac:(in_list) eq_refl) as (Hl & _ & Hv & _).
  split.
  - apply Hl. repeat constructor; eexists; reflexivity.
  - apply Hv. discriminate.
Defined.

(** ** Foreign keys and relationships *)

(** X12: Every [foreign_key] of the module stands in a table class, on an
    integer column, and names the integer column that alone is the
    primary key of a table class of the module; no two classes share a
    table name, so the table it names is one. *)
Theorem foreign_keys_resolve m f target :
  m ∈ all_models -> f ∈ fields m -> get_foreign_key (kwargs f) = Some target ->
  table m = true /\ int_annotation (annotation f) = true /\
  NoDup (omap tablename all_models) /\
  exists m' g,
    m' ∈ all_models /\ table m' = true /\ pk_fields m' = [g] /\
    int_annotation (annotation g) = true /\ column_ref m' g = Some target.
Proof.
  intros Hm Hf Hfk.
  assert (Hall : forallb (fun m => forallb (foreign_key_resolves m) (fields m)) all_models
                 = true) by (vm_compute; reflexivity).
  rewrite forallb_forall in Hall. apply list_elem_of_In, Hall in Hm.
  rewrite forallb_forall in Hm. apply list_elem_of_In, Hm in Hf.
  unfold foreign_key_resolves in Hf. rewrite Hfk in Hf.
  apply andb_true_iff in Hf as [[Ht Hint]%andb_true_iff Hex].
  split; [done | split; [done | split]].
  { apply (bool_decide_unpack _). vm_compute. exact I. }
  apply existsb_exists in Hex as (m' & Hm' & Hex).
  apply existsb_exists in Hex as (g & Hg & Href).
  unfold references in Href.
  apply andb_true_iff in Href as [[[Ht' Hint']%andb_true_iff Hpk]%andb_true_iff Hcol].
  apply bool_decide_eq_true in Hcol.
  exists m', g. repeat split; try done; [by apply list_elem_of_In | ].
  destruct (pk_fields m') as [ | g' [ | ? ?]] eqn:Hpks; try done.
  apply bool_decide_eq_true in Hpk.
  assert (Hg' : g' ∈ fields m').
  { apply list_elem_of_In. apply (proj1 (filter_In is_primary_key g' (fields m'))).
    fold (pk_fields m'). rewrite Hpks. by left. }
  f_equal.
  assert (Hnd : NoDup (fname <$> fields m'))
    by (apply declared_names_NoDup; by apply list_elem_of_In).
  apply list_elem_of_In in Hg.
  clear -Hnd Hg Hg' Hpk. induction (fields m') as [ | h l IH]; [inversion Hg | ].
  simpl in Hnd. apply NoDup_cons in Hnd as [Hh Hnd].
  apply elem_of_cons in Hg as [-> | Hg]; apply elem_of_cons in Hg' as [-> | Hg']; auto.
  - exfalso. apply Hh. rewrite <- Hpk. by apply list_elem_of_fmap_2.
  - exfalso. apply Hh. rewrite Hpk. by apply list_elem_of_fmap_2.
Qed.

Lemma foreign_keys_resolve_witness :
  exists m' g,
    m' ∈ all_models /\ table m' = true /\ pk_fields m' = [g] /\
    int_annotation (annotation g) = true /\ column_ref m' g = Some "queries.id".
Proof.
  apply (foreign_keys_resolve TokenUsage
           (mkField "query_id" (TOptional TInt) [default RNone; foreign_key "queries.id"])
           "queries.id"); [in_list | in_list | reflexivity].
Defined.

Lemma find_rel_Some m n r : find_rel m n = Some r -> r ∈ relationships m /\ rname r = n.
Proof.
  intros [Hin Hn]%find_some. split; [by apply list_elem_of_In | ].
  by apply bool_decide_eq_true in Hn.
Qed.

Lemma find_model_Some n m : find_model n = Some m -> m ∈ all_models /\ cls m = n.
Proof.
  intros [Hin Hn]%find_some. split; [by apply list_elem_of_In | ].
  by apply bool_decide_eq_true in Hn.
Qed.

(** X13: Every relationship of the module leads to a table class of the
    module, and one of the two classes holds a foreign key to the other.
    Where it names [back_populates], the target has a relationship of
    that name that leads back; the two are never both lists; and the
    one on the target names this one in turn, except for four that name
    nothing: those behind [User.billing_records],
    [Subscription.billing_records], [Document.chat_session_links] and
    [ChatSession.document_links]. *)
Theorem relationships_resolve m r :
  m ∈ all_models -> r ∈ relationships m ->
  exists t,
    t ∈ all_models /\ cls t = rtarget r /\ table t = true /\
    (points_to m t = true \/ points_to t m = true) /\
    (forall b, back_populates r = Some b ->
       exists r',
         r' ∈ relationships t /\ rname r' = b /\ rtarget r' = cls m /\
         rmany r && rmany r' = false /\
         (back_populates r' = Some (rname r) \/
          (back_populates r' = None /\ (cls m, rname r) ∈ one_sided))) /\
  one_sided =
    [ ("User", "billing_records"); ("Subscription", "billing_records");
      ("Document", "chat_session_links"); ("ChatSession", "document_links") ].
Proof.
  intros Hm Hr.
  assert (Hall : forallb (fun m => forallb (relationship_resolves m) (relationships m))
                   all_models = true) by (vm_compute; reflexivity).
  rewrite forallb_forall in Hall. pose proof Hm as Hm'.
  apply list_elem_of_In, Hall in Hm'.
  rewrite forallb_forall in Hm'. pose proof Hr as Hr'. apply list_elem_of_In, Hm' in Hr'.
  unfold relationship_resolves in Hr'.
  destruct (find_model (rtarget r)) as [t | ] eqn:Ht; [ | discriminate].
  pose proof (find_model_Some _ _ Ht) as [Htin Htcls].
  apply andb_true_iff in Hr' as [[Htab Hjoin]%andb_true_iff Hback].
  exists t. split; [done | split; [done | split; [done | split; [ | split]]]].
  - by apply orb_true_iff in Hjoin.
  - intros b Hb. rewrite Hb in Hback.
    destruct (find_rel t b) as [r' | ] eqn:Hr'b; [ | discriminate].
    pose proof (find_rel_Some _ _ _ Hr'b) as [Hr'in Hr'name].
    apply andb_true_iff in Hback as [[Htarget Hmany]%andb_true_iff Hanswer].
    apply bool_decide_eq_true in Htarget. apply negb_true_iff in Hmany.
    exists r'. repeat split; try done.
    apply orb_true_iff in Hanswer as [Hans | Hans]; apply bool_decide_eq_true in Hans;
      [by left | right; split; [done | ]].
    unfold one_sided. apply list_elem_of_bind. exists m. split; [ | done].
    apply list_elem_of_bind. exists r. split; [ | done].
    rewrite Hb, Ht, Hr'b. rewrite bool_decide_eq_true_2 by done. apply list_elem_of_here.
  - reflexivity.
Qed.

Lemma relationships_resolve_witness :
  exists t,
    t ∈ all_models /\ cls t = "BillingRecord" /\ table t = true /\
    (points_to User t = true \/ points_to t User = true) /\
    (forall b, Some "user" = Some b ->
       exists r',
         r' ∈ relationships t /\ rname r' = b /\ rtarget r' = "User" /\
         true && rmany r' = false /\
         (back_populates r' = Some "billing_records" \/
          (back_populates r' = None /\ ("User", "billing_records") ∈ one_sided))) /\
  one_sided =
    [ ("User", "billing_records"); ("Subscription", "billing_records");
      ("Document", "chat_session_links"); ("ChatSession", "document_links") ].
Proof.
  apply (relationships_resolve User
           (mkRel "billing_records" "BillingRecord" true (Some "user") false));
    in_list.
Defined.

(** ** The keys of every table *)

Lemma agree_false_differ cols (r1 r2 : gmap string raw) :
  agree cols r1 r2 = false ->
  (forall c, c ∈ cols -> is_null (r1 !! c) = false) ->
  (fun c => r1 !! c) <$> cols <> (fun c => r2 !! c) <$> cols.
Proof.
  intros Ha Hnn Heq.
  assert (Htrue : agree cols r1 r2 = true); [ | congruence].
  unfold agree. apply forallb_forall. intros c Hc%list_elem_of_In.
  rewrite (Hnn c Hc). simpl. apply cell_eqb_eq.
  clear -Heq Hc. induction cols as [ | c' cols IH]; [inversion Hc | ].
  injection Heq as Hhd Htl.
  apply elem_of_cons in Hc as [-> | Hc]; [done | by apply IH].
Qed.

Lemma declared_keys_not_null m cols c :
  m ∈ all_models -> table m = true -> cols ∈ key_cols m -> c ∈ cols ->
  exists f, f ∈ fields m /\ fname f = c /\ nullable f = false.
Proof.
  intros Hm Ht Hcols Hc.
  assert (Hall : forallb (fun m => negb (table m) || keys_not_null m) all_models = true)
    by (vm_compute; reflexivity).
  rewrite forallb_forall in Hall. apply list_elem_of_In, Hall in Hm.
  rewrite Ht in Hm. simpl in Hm. unfold keys_not_null in Hm. rewrite forallb_forall in Hm.
  apply list_elem_of_In, Hm in Hcols. apply andb_true_iff in Hcols as [_ Hcols].
  rewrite forallb_forall in Hcols. apply list_elem_of_In, Hcols in Hc.
  apply existsb_exists in Hc as (f & Hf & [Hn Hnull]%andb_true_iff).
  apply bool_decide_eq_true in Hn. apply negb_true_iff in Hnull.
  exists f. by split; [apply list_elem_of_In | ].
Qed.

(** X14: In every table of the module and after any history of statements,
    the columns of each key, the primary key and every [unique] column,
    are set in every row, and two rows never hold the same values in
    them.  The keys are the [id] of each table, the pair of
    [ChatSessionDocument], and the unique columns [User.email],
    [UserContext.user_id] and [APIKey.key_hash]. *)
Theorem table_keys_hold m history cols :
  m ∈ all_models -> table m = true -> cols ∈ key_cols m ->
  (forall r c, r ∈ rows (run m history) -> c ∈ cols -> is_null (r !! c) = false) /\
  (forall i j r1 r2, i <> j ->
     rows (run m history) !! i = Some r1 ->
     rows (run m history) !! j = Some r2 ->
     (fun c => r1 !! c) <$> cols <> (fun c => r2 !! c) <$> cols) /\
  declared_keys =
    [ ("Organization", [["id"]]); ("User", [["id"]; ["email"]]);
      ("UserContext", [["id"]; ["user_id"]]); ("APIKey", [["id"]; ["key_hash"]]);
      ("Subscription", [["id"]]); ("TokenUsage", [["id"]]); ("Document", [["id"]]);
      ("ChatSession", [["id"]]);
      ("ChatSessionDocument", [["chat_session_id"; "document_id"]]);
      ("Query", [["id"]]); ("BillingRecord", [["id"]]) ].
Proof.
  intros Hm Ht Hcols.
  assert (Hnn : forall r c, r ∈ rows (run m history) -> c ∈ cols ->
            is_null (r !! c) = false).
  { intros r c Hr Hc.
    destruct (declared_keys_not_null m cols c Hm Ht Hcols Hc) as (f & Hf & <- & Hnull).
    by apply (run_not_null m history r f). }
  split; [exact Hnn | split; [ | reflexivity]].
  intros i j r1 r2 Hij H1 H2.
  apply agree_false_differ.
  - by apply (run_distinct m history cols Hcols i j).
  - intros c Hc. apply Hnn; [ | done]. by apply (list_elem_of_lookup_2 _ i).
Qed.

Lemma table_keys_hold_witness :
  length (rows (run APIKey apikeys_history)) = 2 /\
  forall i j r1 r2, i <> j ->
    rows (run APIKey apikeys_history) !! i = Some r1 ->
    rows (run APIKey apikeys_history) !! j = Some r2 ->
    (fun c => r1 !! c) <$> ["key_hash"] <> (fun c => r2 !! c) <$> ["key_hash"].
Proof.
  split; [vm_compute; reflexivity | ].
  apply (table_keys_hold APIKey apikeys_history ["key_hash"]); [in_list | done | in_list].
Defined.
